(** * ReproZip packing engine: a shallow embedding of [reprozip/pack.py]
      and [tracer/common.py], with the properties of its specification.

    Paths are the normalised byte strings that the [rpaths] library stores in
    a [PosixPath]; sets are [gset]s; the file system is a finite map from
    paths to the kind of object found there; the archive is the list of
    entries handed to [tarfile.add], in order. *)

From Stdlib Require Import ZArith Ascii String List Lia DecimalString.
From stdpp Require Import base decidable countable gmap strings list.

Local Open Scope string_scope.
Local Open Scope list_scope.

(** ** Strings, as Python's [str] methods use them *)

Module Py.

Definition sep : ascii := "/"%char.

(** [s.split('/')] *)
Fixpoint split (s : string) : list string :=
  match s with
  | EmptyString => [EmptyString]
  | String c s' =>
      if Ascii.eqb c sep then EmptyString :: split s'
      else match split s' with
           | [] => [String c EmptyString]
           | w :: ws => String c w :: ws
           end
  end.

(** ['/'.join(l)] *)
Fixpoint join (l : list string) : string :=
  match l with
  | [] => EmptyString
  | [w] => w
  | w :: l' => w +:+ String sep (join l')
  end.

(** [s.startswith(p)] *)
Fixpoint startswith (s p : string) {struct p} : bool :=
  match p, s with
  | EmptyString, _ => true
  | String _ _, EmptyString => false
  | String a p', String b s' => Ascii.eqb b a && startswith s' p'
  end.

(** [s[1:]] *)
Definition from1 (s : string) : string :=
  match s with
  | EmptyString => EmptyString
  | String _ s' => s'
  end.

(** [s.endswith('/')] *)
Fixpoint endswith_sep (s : string) : bool :=
  match s with
  | EmptyString => false
  | String c EmptyString => Ascii.eqb c sep
  | String _ s' => endswith_sep s'
  end.

(** ['/' in s] *)
Fixpoint has_sep (s : string) : bool :=
  match s with
  | EmptyString => false
  | String c s' => Ascii.eqb c sep || has_sep s'
  end.

(** [s == '/' * len(s)] *)
Fixpoint all_sep (s : string) : bool :=
  match s with
  | EmptyString => true
  | String c s' => Ascii.eqb c sep && all_sep s'
  end.

(** [s[:s.rfind('/') + 1]] *)
Fixpoint upto_last_sep (s : string) : string :=
  match s with
  | EmptyString => EmptyString
  | String c s' =>
      if has_sep s' then String c (upto_last_sep s')
      else if Ascii.eqb c sep then String c EmptyString
      else EmptyString
  end.

(** [s.rstrip('/')] *)
Fixpoint rstrip_sep (s : string) : string :=
  match s with
  | EmptyString => EmptyString
  | String c s' =>
      if all_sep s' && Ascii.eqb c sep then EmptyString
      else String c (rstrip_sep s')
  end.

End Py.

(** ** [posixpath]: the three functions [rpaths] calls *)

Module posixpath.

(** One round of the loop of [normpath] over the components. *)
Definition norm_step (initial_slashes : nat) (new_comps : list string)
    (comp : string) : list string :=
  if String.eqb comp "" || String.eqb comp "." then new_comps
  else if negb (String.eqb comp "..")
          || (Nat.eqb initial_slashes 0 && Nat.eqb (length new_comps) 0)
          || (negb (Nat.eqb (length new_comps) 0)
              && String.eqb (List.last new_comps "") "..")
       then new_comps ++ [comp]
       else if negb (Nat.eqb (length new_comps) 0)
            then removelast new_comps
            else new_comps.

Definition initial_slashes (path : string) : nat :=
  if Py.startswith path "/" then
    if Py.startswith path "//" && negb (Py.startswith path "///")
    then 2 else 1
  else 0.

Fixpoint slashes (n : nat) : string :=
  match n with
  | O => ""
  | S n' => String Py.sep (slashes n')
  end.

Definition normpath (path : string) : string :=
  if String.eqb path "" then "."
  else
    let i := initial_slashes path in
    let comps := fold_left (norm_step i) (Py.split path) [] in
    let path' := slashes i +:+ Py.join comps in
    if String.eqb path' "" then "." else path'.

(** [join(a, b)], one further part at a time. *)
Definition join2 (path b : string) : string :=
  if Py.startswith b "/" then b
  else if String.eqb path "" || Py.endswith_sep path then path +:+ b
  else path +:+ String Py.sep b.

Definition join (a : string) (p : list string) : string :=
  fold_left join2 p a.

Definition dirname (p : string) : string :=
  let head := Py.upto_last_sep p in
  if negb (String.eqb head "") && negb (Py.all_sep head)
  then Py.rstrip_sep head else head.

End posixpath.

(** ** [rpaths.PosixPath] *)

(** The class behind [Path] on a POSIX host.  Its constructor joins the
    parts with [posixpath.join] and normalises the result with
    [posixpath.normpath]; two paths are equal when their strings are, and a
    path hashes as its string.  A [Path] object holds one attribute, the
    normalised string. *)
Record Path := PathObj { pstr : string }.

Global Instance Path_eq_dec : EqDecision Path.
Proof. solve_decision. Defined.

Global Instance Path_countable : Countable Path :=
  inj_countable' pstr PathObj (fun p => match p with PathObj _ => eq_refl end).

(** [Path(parts...)], the constructor *)
Definition Path_new (parts : list string) : Path :=
  match parts with
  | [] => PathObj "."
  | a :: p => PathObj (posixpath.normpath (posixpath.join a p))
  end.

(** [self / other] *)
Definition Path_div (self : Path) (other : string) : Path :=
  Path_new [pstr self; other].

(** [self.split_root()]: [splitdrive] finds no drive in a POSIX path. *)
Definition split_root (self : Path) : Path * Path :=
  let rest := pstr self in
  if Py.startswith (pstr self) "/"
  then (Path_new ["/"], Path_new [Py.from1 rest])
  else (Path_new [""], Path_new [rest]).

(** [self.components] *)
Definition components (self : Path) : list string :=
  let '(root, loc) := split_root self in
  (if String.eqb (pstr root) "." then [] else [pstr root])
  ++ (if String.eqb (pstr loc) "." then [] else Py.split (pstr loc)).

(** [self.parent] *)
Definition parent (self : Path) : Path :=
  Path_new [posixpath.dirname (pstr self)].

(** ** [pack.data_path] *)

(** [data_path(filename, prefix)], and the call with the default prefix. *)
Definition data_path_in (prefix filename : Path) : Path :=
  Path_div prefix (pstr (snd (split_root filename))).

Definition data_path (filename : Path) : Path :=
  data_path_in (Path_new ["DATA"]) filename.

(** ** Outcomes of a Python call, and the world it runs in *)

Inductive outcome (A : Type) : Type :=
  | Returned (a : A)
  | SysExit (status : Z)
  | Raised (exn : string).
Arguments Returned {A} a.
Arguments SysExit {A} status.
Arguments Raised {A} exn.

Inductive level := DEBUG | INFO | WARNING.

Global Instance level_eq_dec : EqDecision level.
Proof. solve_decision. Defined.

(** What [os.stat] reports about an existing path. *)
Record inode := Inode { st_isdir : bool; st_size : Z }.

(** One call of [TarFile.add(name, arcname, recursive)]. *)
Record TarEntry := Entry { name : string; arcname : string; recursive : bool }.

Record File := FileObj { File_path : Path; File_size : option Z }.

Record Package := PackageObj {
  Package_name : string;
  Package_version : option string;
  Package_files : list File;
  Package_packfiles : bool;
  Package_size : option Z
}.

Section Pack.

(** The run descriptions are passed through unchanged. *)
Context {Runs : Type}.

(** What [save_config] was asked to serialise. *)
Record Manifest := ManifestDoc {
  m_runs : Runs;
  m_packages : list Package;
  m_other_files : list File;
  m_version : string
}.

Record World := WorldState {
  fs : gmap Path inode;                     (* the objects on disk *)
  sqlite : gmap Path (list (string * Z));   (* rows of [opened_files], per database file *)
  stderr : list string;
  logging : list (level * string);
  saved : list (Path * Manifest);           (* calls of [save_config] *)
  archives : gmap string (list TarEntry)    (* archives that were closed *)
}.

Definition with_fs (f : gmap Path inode -> gmap Path inode) (w : World) : World :=
  WorldState (f (fs w)) (sqlite w) (stderr w) (logging w) (saved w) (archives w).
Definition with_stderr (s : string) (w : World) : World :=
  WorldState (fs w) (sqlite w) (stderr w ++ [s]) (logging w) (saved w) (archives w).
Definition with_log (l : level) (s : string) (w : World) : World :=
  WorldState (fs w) (sqlite w) (stderr w) (logging w ++ [(l, s)]) (saved w) (archives w).
Definition with_saved (p : Path) (m : Manifest) (w : World) : World :=
  WorldState (fs w) (sqlite w) (stderr w) (logging w) (saved w ++ [(p, m)]) (archives w).
Definition with_archive (p : string) (es : list TarEntry) (w : World) : World :=
  WorldState (fs w) (sqlite w) (stderr w) (logging w) (saved w) (<[p := es]> (archives w)).

(** Code that reads and writes the world and may exit or raise. *)
Definition M (A : Type) : Type := World -> World * outcome A.

Definition ret {A} (a : A) : M A := fun w => (w, Returned a).

Definition bind {A B} (c : M A) (k : A -> M B) : M B :=
  fun w =>
    match c w with
    | (w', Returned a) => k a w'
    | (w', SysExit s) => (w', SysExit s)
    | (w', Raised e) => (w', Raised e)
    end.

Definition raise {A} (exn : string) : M A := fun w => (w, Raised exn).
Definition sys_exit {A} (status : Z) : M A := fun w => (w, SysExit status).
Definition get_world : M World := fun w => (w, Returned w).
Definition effect (f : World -> World) : M unit := fun w => (f w, Returned tt).
Definition lift {A} (o : outcome A) : M A := fun w => (w, o).

Notation "x <- c ;; k" := (bind c (fun x => k))
  (at level 100, c at next level, right associativity).
Notation "c ;;; k" := (bind c (fun _ => k))
  (at level 100, right associativity).

(** [sys.stderr.write], [logging.debug/info/warning] *)
Definition stderr_write (s : string) : M unit := effect (with_stderr s).
Definition log (l : level) (s : string) : M unit := effect (with_log l s).

(** [Path.exists()], [Path.is_file()], [Path.is_dir()], [os.stat] *)
Definition path_exists (w : World) (p : Path) : bool :=
  bool_decide (is_Some (fs w !! p)).
Definition is_file (w : World) (p : Path) : bool :=
  match fs w !! p with Some i => negb (st_isdir i) | None => false end.
Definition is_dir (w : World) (p : Path) : bool :=
  match fs w !! p with Some i => st_isdir i | None => false end.
Definition os_stat (w : World) (p : Path) : option Z :=
  st_size <$> fs w !! p.

(** ** [tracer/common.py] *)

(** [File(path)]: the size is sampled when the object is built. *)
Definition File_new (w : World) (path : Path) : File :=
  FileObj path (os_stat w path).

(** The second operand of [==] can be any object. *)
Inductive object :=
  | ObjFile (f : File)
  | ObjPackage (p : Package)
  | ObjPath (p : Path)
  | ObjStr (s : string)
  | ObjNone.

(** [File.__eq__] *)
Definition File_eq (self : File) (other : object) : bool :=
  match other with
  | ObjFile other => bool_decide (File_path self = File_path other)
  | _ => false
  end.

(** The collaborators of the packing engine that live outside it: the
    constants of [reprozip.common], the configuration codec, the package
    identifier, the merger of [reprozip.tracer.trace], the directory walk
    and the temporary files of [rpaths], and Python's [hash]. *)
Class Externals := {
  FILE_WRITE : Z;
  FILE_WDIR : Z;
  reprozip_version : string;
  py_hash : string -> Z;
  recursedir : World -> Path -> string -> list Path;
  load_config : World -> Path -> outcome (Runs * list Package * list File * list string);
  identify_packages : World -> list File -> list File * list Package;
  merge_files : list File -> list Package -> list File -> list Package ->
                list File * list Package;
  tempfile : World -> string -> string -> Path
}.

Context {E : Externals}.

(** [File.__hash__] is [hash(self.path)], and a path hashes as its string. *)
Definition File_hash (self : File) : Z := py_hash (pstr (File_path self)).

(** ** [pack.expand_patterns] *)

(** The first loop: sort the matches into [files] and [dirs]. *)
Definition expand_match (w : World) (acc : gset Path * gset Path) (path : Path)
    : gset Path * gset Path :=
  let '(files, dirs) := acc in
  if is_dir w path then (files, dirs ∪ {[path]}) else (files ∪ {[path]}, dirs).

Definition expand_matches (w : World) (patterns : list string)
    : gset Path * gset Path :=
  fold_left
    (fun acc pattern =>
       fold_left (expand_match w) (recursedir w (Path_new ["/"]) pattern) acc)
    patterns (∅, ∅).

(** The inner loop over [p.components[1:]]. *)
Fixpoint walk_down (path : Path) (cs : list string) (non_empty_dirs : gset Path)
    : gset Path :=
  match cs with
  | [] => non_empty_dirs
  | c :: cs' =>
      let path := Path_div path c in
      walk_down path cs' (non_empty_dirs ∪ {[path]})
  end.

Definition non_empty_dirs_of (matched : list Path) : gset Path :=
  fold_left
    (fun non_empty_dirs p =>
       walk_down (Path_new ["/"]) (drop 1 (components p)) non_empty_dirs)
    matched {[Path_new ["/"]]}.

Definition expand_patterns (w : World) (patterns : list string) : list File :=
  let '(files, dirs) := expand_matches w patterns in
  let non_empty_dirs := non_empty_dirs_of (elements (files ∪ dirs)) in
  File_new w <$> (elements (dirs ∖ non_empty_dirs) ++ elements files).

(** ** [pack.canonicalize_config] *)

Definition canonicalize_config (w : World) (runs : Runs) (packages : list Package)
    (other_files : list File) (additional_patterns : list string)
    (sort_packages : bool) : Runs * list Package * list File :=
  let add_files := expand_patterns w additional_patterns in
  let '(add_files, add_packages) :=
    if sort_packages then identify_packages w add_files else (add_files, []) in
  let '(other_files, packages) :=
    merge_files add_files add_packages other_files packages in
  (runs, packages, other_files).

(** ** [pack.list_directories] *)

(** A missing or foreign database file has no [opened_files] table: the
    query raises.  Only the rows read are modelled. *)
Definition list_directories (w : World) (database : Path) : outcome (gset Path) :=
  match sqlite w !! database with
  | None => Raised "sqlite3.OperationalError"
  | Some opened_files =>
      let executed_files :=
        filter (fun r => snd r = FILE_WDIR \/ snd r = FILE_WRITE) opened_files in
      let executed_files :=
        (fun r => (Path_new [fst r], snd r)) <$> executed_files in
      Returned
        (list_to_set
           ((fun r => if bool_decide (snd r = FILE_WDIR) then fst r
                      else parent (fst r)) <$> executed_files))
  end.

(** ** [pack.PackBuilder] *)

(** The [TarFile] object: the calls of [add] so far, in order, under the
    name the archive was opened with.  A call with [recursive=False], or
    on a regular file, writes one member. *)
Record TarFile := TarObj {
  tar_name : string;
  members : list TarEntry;
  closed : bool
}.

Record PackBuilder := Builder { tar : TarFile; seen : option (gset Path) }.

(** [tarfile.open(name, 'w:gz')] creates the file. *)
Definition tarfile_open (name : string) : M TarFile :=
  effect (with_fs (insert (PathObj name) (Inode false 0)));;;
  ret (TarObj name [] false).

Definition TarFile_add (t : TarFile) (name arcname : string) (recursive : bool)
    : M TarFile :=
  if closed t then raise "OSError"
  else ret (TarObj (tar_name t) (members t ++ [Entry name arcname recursive]) false).

Definition TarFile_close (t : TarFile) : M TarFile :=
  if closed t then ret t
  else effect (with_archive (tar_name t) (members t));;;
       ret (TarObj (tar_name t) (members t) true).

(** [PackBuilder.__init__] *)
Definition PackBuilder_init (filename : Path) : M PackBuilder :=
  t <- tarfile_open (pstr filename);;
  ret (Builder t (Some ∅)).

(** [PackBuilder.add] *)
Definition PackBuilder_add (self : PackBuilder) (name arcname : Path)
    : M PackBuilder :=
  t <- TarFile_add (tar self) (pstr name) (pstr arcname) true;;
  ret (Builder t (seen self)).

(** The loop of [PackBuilder.add_data] over [filename.components[1:]]. *)
Fixpoint add_data_loop (path : Path) (cs : list string) (t : TarFile)
    (seen : gset Path) : M (TarFile * gset Path) :=
  match cs with
  | [] => ret (t, seen)
  | c :: cs' =>
      let path := Path_div path c in
      if bool_decide (path ∈ seen) then add_data_loop path cs' t seen
      else
        log DEBUG (pstr path +:+ " -> " +:+ pstr (data_path path));;;
        t <- TarFile_add t (pstr path) (pstr (data_path path)) false;;
        add_data_loop path cs' t (seen ∪ {[path]})
  end.

(** [PackBuilder.add_data]; after [close] the ledger is [None] and the
    membership test raises. *)
Definition add_data (self : PackBuilder) (filename : Path) : M PackBuilder :=
  match seen self with
  | None => raise "TypeError"
  | Some s =>
      if bool_decide (filename ∈ s) then ret self
      else
        r <- add_data_loop (Path_new ["/"]) (drop 1 (components filename))
               (tar self) s;;
        ret (Builder (fst r) (Some (snd r)))
  end.

(** [PackBuilder.close] *)
Definition PackBuilder_close (self : PackBuilder) : M PackBuilder :=
  t <- TarFile_close (tar self);;
  ret (Builder t None).

(** ** [pack.pack] *)

Definition nl : string := String (ascii_of_nat 10) EmptyString.

(** The loop [for f in ...: if not Path(f.path).exists(): warn, else:
    add_data and keep], written twice in [pack]: over the files of a
    package and over [other_files]; the two differ in the warning. *)
Fixpoint pack_files (warning : File -> string) (fl : list File)
    (tar : PackBuilder) (files : list File) : M (PackBuilder * list File) :=
  match fl with
  | [] => ret (tar, files)
  | f :: fl' =>
      w <- get_world;;
      if negb (path_exists w (Path_new [pstr (File_path f)])) then
        log WARNING (warning f);;;
        pack_files warning fl' tar files
      else
        tar <- add_data tar (File_path f);;
        pack_files warning fl' tar (files ++ [f])
  end.

Definition missing_from (pkg : Package) (f : File) : string :=
  "Missing file " +:+ pstr (File_path f) +:+ " from package " +:+ Package_name pkg.

Definition missing (f : File) : string :=
  "Missing file " +:+ pstr (File_path f).

(** [for pkg in packages]; the assignment [pkg.files = files] rebuilds
    the package at its place in the list. *)
Fixpoint pack_packages (packages : list Package) (tar : PackBuilder)
    : M (PackBuilder * list Package) :=
  match packages with
  | [] => ret (tar, [])
  | pkg :: packages' =>
      r <- (if Package_packfiles pkg then
              log INFO ("Adding files from package " +:+ Package_name pkg +:+ "...");;;
              r <- pack_files (missing_from pkg) (Package_files pkg) tar [];;
              ret (fst r,
                   PackageObj (Package_name pkg) (Package_version pkg) (snd r)
                     (Package_packfiles pkg) (Package_size pkg))
            else
              log INFO ("NOT adding files from package " +:+ Package_name pkg);;;
              ret (tar, pkg));;
      r' <- pack_packages packages' (fst r);;
      ret (fst r', snd r :: snd r')
  end.

(** [for directory in list_directories(trace)] *)
Fixpoint pack_directories (dirs : list Path) (tar : PackBuilder) : M PackBuilder :=
  match dirs with
  | [] => ret tar
  | directory :: dirs' =>
      w <- get_world;;
      tar <- (if is_dir w directory then add_data tar directory else ret tar);;
      pack_directories dirs' tar
  end.

(** [try: body finally: path.remove()] *)
Definition finally_remove {A} (body : M A) (path : Path) : M A :=
  fun w =>
    let '(w', o) := body w in
    (with_fs (delete path) w', o).

Definition pack (target directory : Path) (sort_packages : bool) : M unit :=
  w <- get_world;;
  (if path_exists w target then
     stderr_write ("Error: Target file exists!" +:+ nl);;;
     sys_exit 1
   else ret tt);;;
  let configfile := Path_div directory "config.yml" in
  w <- get_world;;
  (if negb (is_file w configfile) then
     stderr_write ("Error: Configuration file does not exist!" +:+ nl +:+
                   "Did you forget to run 'reprozip trace'?" +:+ nl +:+
                   "If not, you might want to use --dir to specify an " +:+
                   "alternate location." +:+ nl);;;
     sys_exit 1
   else ret tt);;;
  w <- get_world;;
  cfg <- lift (load_config w configfile);;
  let '(runs, packages, other_files, additional_patterns) := cfg in
  w <- get_world;;
  let '(runs, packages, other_files) :=
    canonicalize_config w runs packages other_files additional_patterns
      sort_packages in
  log INFO ("Creating pack " +:+ pstr target +:+ "...");;;
  tar <- PackBuilder_init target;;
  let trace := Path_div directory "trace.sqlite3" in
  w <- get_world;;
  tar <- (if is_file w trace
          then PackBuilder_add tar trace (Path_new ["METADATA/trace.sqlite3"])
          else ret tar);;
  r <- pack_packages packages tar;;
  let '(tar, packages) := r in
  log INFO "Adding other files...";;;
  r <- pack_files missing other_files tar [];;
  let '(tar, other_files) := r in
  w <- get_world;;
  directories <- lift (list_directories w trace);;
  tar <- pack_directories (elements directories) tar;;
  log INFO "Adding metadata...";;;
  w <- get_world;;
  let manifest := tempfile w "reprozip_" ".txt" in
  effect (with_fs (insert manifest (Inode false 0)));;;
  tar <- finally_remove
           (effect (with_fs (insert manifest (Inode false 19)));;;
            PackBuilder_add tar manifest (Path_new ["METADATA/version"]))
           manifest;;
  w <- get_world;;
  let can_configfile := tempfile w "rpz_config_" ".yml" in
  effect (with_fs (insert can_configfile (Inode false 0)));;;
  tar <- finally_remove
           (effect (with_saved can_configfile
                      (ManifestDoc runs packages other_files reprozip_version));;;
            PackBuilder_add tar can_configfile (Path_new ["METADATA/config.yml"]))
           can_configfile;;
  _ <- PackBuilder_close tar;;
  ret tt.

End Pack.

(** ** Vocabulary of the specification *)

(** A file name: not empty, neither [.] nor [..], without a separator. *)
Definition name_ok (c : string) : bool :=
  negb (String.eqb c "") && negb (String.eqb c ".") && negb (String.eqb c "..")
  && negb (Py.has_sep c).

(** The path [/c1/.../cn], as the string a [Path] stores for it. *)
Definition rooted_at (cs : list string) : Path :=
  PathObj (String Py.sep (Py.join cs)).

Definition names (cs : list string) : Prop :=
  Forall (fun c => name_ok c = true) cs.

(** A well-formed absolute path: the root followed by file names. *)
Definition rooted (p : Path) : Prop :=
  exists cs, names cs /\ p = rooted_at cs.

(** [a] lies strictly above [q]: it is reached from [q] by [parent]. *)
Definition proper_ancestor (a q : Path) : Prop :=
  a <> q /\ exists k, a = Nat.iter k parent q.

(** The paths [path / c1], [path / c1 / c2], ... that the loops over
    [components[1:]] visit. *)
Fixpoint walk (path : Path) (cs : list string) : list Path :=
  match cs with
  | [] => []
  | c :: cs' => Path_div path c :: walk (Path_div path c) cs'
  end.

(** Of the paths of [l], in order, those met for the first time. *)
Fixpoint fresh (seen : gset Path) (l : list Path) : list Path :=
  match l with
  | [] => []
  | p :: l' =>
      if bool_decide (p ∈ seen) then fresh seen l'
      else p :: fresh (seen ∪ {[p]}) l'
  end.

(** The archive entry and the log line that [add_data] writes for a path. *)
Definition data_entry (p : Path) : TarEntry :=
  Entry (pstr p) (pstr (data_path p)) false.

Definition debug_line (p : Path) : level * string :=
  (DEBUG, pstr p +:+ " -> " +:+ pstr (data_path p)).

(** The paths for which a call [add_data(filename)] writes an entry, given
    the ledger before the call. *)
Definition added (seen : gset Path) (filename : Path) : list Path :=
  if bool_decide (filename ∈ seen) then []
  else fresh seen (walk (Path_new ["/"]) (drop 1 (components filename))).


Section Vocabulary.

Context {Runs : Type} {E : @Externals Runs}.

(** The world after some more log records. *)
Definition logged (recs : list (level * string)) (w : @World Runs) : @World Runs :=
  WorldState (fs w) (sqlite w) (stderr w) (logging w ++ recs) (saved w) (archives w).

(** What the rule of TraceDirectoryExtractor asks for. *)
Definition required_by (rows : list (string * Z)) (d : Path) : Prop :=
  (exists n, (n, FILE_WDIR) ∈ rows /\ d = Path_new [n])
  \/ (exists n, (n, FILE_WRITE) ∈ rows /\ d = parent (Path_new [n])).








(** The file named by a manifest entry is there. *)
Definition on_disk (w : @World Runs) (f : File) : bool :=
  path_exists w (Path_new [pstr (File_path f)]).

(** A package after packing: with [packfiles], its files that are on
    disk; without, as it was. *)
Definition prune (w : @World Runs) (pkg : Package) : Package :=
  if Package_packfiles pkg then
    PackageObj (Package_name pkg) (Package_version pkg)
      (filter (fun f => on_disk w f = true) (Package_files pkg))
      (Package_packfiles pkg) (Package_size pkg)
  else pkg.

(** An open builder whose ledger is covered by entries of the archive. *)
Definition open_builder (self : PackBuilder) : Prop :=
  closed (tar self) = false
  /\ exists s, seen self = Some s
              /\ forall q, q ∈ s -> data_entry q ∈ members (tar self).

(** The entry [e] was written while walking down to a file of [fl] that
    is on disk. *)
Definition entry_for (w : @World Runs) (fl : list File) (e : TarEntry) : Prop :=
  exists f p,
    f ∈ fl /\ on_disk w f = true
    /\ p ∈ walk (Path_new ["/"]) (drop 1 (components (File_path f)))
    /\ e = data_entry p.

(** What PatternExpander is to return, in the words of the
    specification: the matched files, and the matched directories that are
    not a proper ancestor of another matched path. *)
Definition expected_pattern_entry (w : @World Runs) (patterns : list string)
    (p : Path) : Prop :=
  let '(files, dirs) := expand_matches w patterns in
  p ∈ files
  \/ (p ∈ dirs /\ ~ exists q, q ∈ files ∪ dirs /\ proper_ancestor p q).

(** Nothing changed but one more line on [stderr]. *)
Definition only_stderr (w w' : @World Runs) : Prop :=
  fs w' = fs w /\ sqlite w' = sqlite w /\ logging w' = logging w
  /\ saved w' = saved w /\ archives w' = archives w
  /\ exists msg, stderr w' = stderr w ++ [msg].

(** [pack] gets past its preconditions and works on the canonical
    manifest [(runs, packages, other_files)]. *)
Definition pack_ready (target directory : Path) (sort_packages : bool)
    (w : @World Runs) (runs : Runs) (packages : list Package)
    (other_files : list File) : Prop :=
  path_exists w target = false
  /\ is_file w (Path_div directory "config.yml") = true
  /\ exists runs0 packages0 other_files0 patterns,
       load_config w (Path_div directory "config.yml")
         = Returned (runs0, packages0, other_files0, patterns)
       /\ canonicalize_config w runs0 packages0 other_files0 patterns sort_packages
         = (runs, packages, other_files).


End Vocabulary.

(** ** A concrete snapshot, for the examples *)

Module Demo.

Definition mkdir (p : string) (fs : gmap Path inode) : gmap Path inode :=
  <[Path_new [p] := Inode true 4096]> fs.

Definition touch (p : string) (n : Z) (fs : gmap Path inode) : gmap Path inode :=
  <[Path_new [p] := Inode false n]> fs.

(** Stand-ins for the collaborators: a configuration codec that yields
    the given document, a walk that matches a pattern without wildcards
    against the one path of that name, no package identification, and a
    merger that appends. *)
Definition env (packages : list Package) (other_files : list File)
    (additional_patterns : list string) : @Externals unit :=
  {| FILE_WRITE := 2;
     FILE_WDIR := 4;
     reprozip_version := "0.2";
     py_hash := fun s => Z.of_nat (String.length s);
     recursedir := fun w top pattern =>
       filter (fun p => p = Path_div top pattern) (elements (dom (fs w)));
     load_config := fun _ _ => Returned (tt, packages, other_files, additional_patterns);
     identify_packages := fun _ fl => (fl, []);
     merge_files := fun add_files add_packages other_files packages =>
       (other_files ++ add_files, packages ++ add_packages);
     tempfile := fun _ prefix suffix => Path_new ["/tmp/" +:+ prefix +:+ "0" +:+ suffix] |}.

Definition file (p : string) : File := FileObj (Path_new [p]) None.

Definition coreutils : Package :=
  PackageObj "coreutils" (Some "8.21") [file "/bin/ls"; file "/bin/missing"] true (Some 100%Z).

Definition libc : Package :=
  PackageObj "libc6" None [file "/lib/libc.so.6"; file "/lib/gone.so"] false None.

Definition disk : gmap Path inode :=
  touch "/home/user/exp/config.yml" 512
    (mkdir "/home/user/exp"
       (mkdir "/home/user/project"
          (mkdir "/home/user"
             (mkdir "/home"
                (touch "/etc/hosts" 200
                   (mkdir "/etc"
                      (touch "/bin/ls" 1000
                         (mkdir "/bin"
                            (mkdir "/srv"
                               (mkdir "/tmp"
                                  (mkdir "/" ∅))))))))))).

Definition trace_rows : list (string * Z) :=
  [("/home/user", 4%Z); ("/home/user/project/out.txt", 2%Z)].

Definition world_without_trace : @World unit :=
  WorldState disk ∅ [] [] [] ∅.

Definition world : @World unit :=
  WorldState (touch "/home/user/exp/trace.sqlite3" 8192 disk)
    {[Path_new ["/home/user/exp/trace.sqlite3"] := trace_rows]} [] [] [] ∅.

Definition target : Path := Path_new ["/home/user/exp.rpz"].
Definition directory : Path := Path_new ["/home/user/exp"].

End Demo.

(** ** More of [tracer/common.py]: [Package] and serialisation *)

(** ['%d' % n] and ['    ' * lvl] *)
Definition fmt_d (n : Z) : string := NilEmpty.string_of_int (Z.to_int n).

Fixpoint repeat_str (s : string) (n : nat) : string :=
  match n with
  | O => ""
  | S n' => s +:+ repeat_str s n'
  end.

Definition indent (lvl : Z) : string := repeat_str "    " (Z.to_nat lvl).

(** [Package.__init__], with its defaults, and [Package.add_file] *)
Definition Package_init (name : string) (version : option string)
    (files : list File) (packfiles : bool) (size : option Z) : Package :=
  PackageObj name version files packfiles size.

Definition Package_default (name : string) (version : option string) : Package :=
  Package_init name version [] true None.

Definition Package_add_file (self : Package) (filename : File) : Package :=
  PackageObj (Package_name self) (Package_version self)
    (Package_files self ++ [filename])
    (Package_packfiles self) (Package_size self).

Section Serialize.

(** [Serializable.string] and [hsize] live in [reprozip.utils]. *)
Class Utils := {
  ser_string : string -> string;
  hsize : option Z -> string
}.

Context {U : Utils}.

(** The file object [fp] is the list of the strings written to it. *)

(** [File.serialize] *)
Definition File_serialize (self : File) (fp : list string) (lvl : Z) : list string :=
  fp ++ ["File(" +:+ ser_string (pstr (File_path self)) +:+ ")"].

(** [sum(f.size for f in self.files if f.size is not None)] *)
Definition total_size (files : list File) : Z :=
  fold_left (fun acc f => match File_size f with Some n => acc + n | None => acc end)%Z
    files 0%Z.

(** The loop [for f in self.files] of [Package.serialize] *)
Fixpoint serialize_files (files : list File) (fp : list string) (lvl : Z) : list string :=
  match files with
  | [] => fp
  | f :: files' =>
      let fp := fp ++ [indent (lvl + 1)] in
      let fp := File_serialize f fp (lvl + 1) in
      let fp := fp ++ [", # " +:+ hsize (File_size f) +:+ nl] in
      serialize_files files' fp lvl
  end.

(** [Package.serialize]: the first line formats the size with [%d], which
    raises on [None] before anything is written. *)
Definition Package_serialize (self : Package) (fp : list string) (lvl : Z)
    : list string * outcome unit :=
  match Package_size self with
  | None => (fp, Raised "TypeError")
  | Some size =>
      let fp := fp ++ ["Package(name=" +:+ ser_string (Package_name self)
                       +:+ match Package_version self with
                           | Some v => ", version=" +:+ ser_string v
                           | None => ""
                           end
                       +:+ ", size=" +:+ fmt_d size +:+ "," +:+ nl] in
      let fp := fp ++ [indent lvl +:+ "        packfiles="
                       +:+ (if Package_packfiles self then "True" else "False")
                       +:+ "," +:+ nl] in
      let fp := fp ++ [indent lvl +:+ "        files=[" +:+ nl] in
      let fp := fp ++ [indent (lvl + 1) +:+ "# Total files used: "
                       +:+ hsize (Some (total_size (Package_files self))) +:+ nl] in
      let fp := fp ++ [indent (lvl + 1) +:+ "# Installed package size: "
                       +:+ hsize (Package_size self) +:+ nl] in
      let fp := serialize_files (Package_files self) fp lvl in
      (fp ++ [indent lvl +:+ "])"], Returned tt)
  end.

End Serialize.

(** ** More vocabulary *)


(** The walk from the root yields [p] for one of the patterns. *)
Definition matched {Runs : Type} {E : @Externals Runs} (w : @World Runs)
    (patterns : list string) (p : Path) : Prop :=
  exists pattern, pattern ∈ patterns /\ p ∈ recursedir w (Path_new ["/"]) pattern.

(** An observation that [list_directories] reads. *)
Definition relevant {Runs : Type} {E : @Externals Runs} (r : string * Z) : Prop :=
  snd r = FILE_WDIR \/ snd r = FILE_WRITE.

(** The three strings that [Package.serialize] writes for one file. *)
Definition file_chunks {U : Utils} (lvl : Z) (f : File) : list string :=
  [indent (lvl + 1);
   "File(" +:+ ser_string (pstr (File_path f)) +:+ ")";
   ", # " +:+ hsize (File_size f) +:+ nl].

(** ** More stand-ins, for the further examples *)

Module DemoMore.

(** A codec that rejects the configuration. *)
Definition broken_env : @Externals unit :=
  {| FILE_WRITE := 2;
     FILE_WDIR := 4;
     reprozip_version := "0.2";
     py_hash := fun s => Z.of_nat (String.length s);
     recursedir := fun _ _ _ => [];
     load_config := fun _ _ => Raised "yaml.YAMLError";
     identify_packages := fun _ fl => (fl, []);
     merge_files := fun add_files add_packages other_files packages =>
       (other_files ++ add_files, packages ++ add_packages);
     tempfile := fun _ prefix suffix => Path_new ["/tmp/" +:+ prefix +:+ "0" +:+ suffix] |}.

Definition utils : Utils :=
  {| ser_string := fun s => "'" +:+ s +:+ "'";
     hsize := fun o => match o with
                       | Some n => fmt_d n +:+ " bytes"
                       | None => "unknown"
                       end |}.

Definition env : @Externals unit :=
  Demo.env [Demo.coreutils; Demo.libc] [Demo.file "/etc/hosts"; Demo.file "/etc/gone"] [].

Definition dirs : gset Path :=
  {[Path_new ["/home/user"]; Path_new ["/home/user/project"]]}.

Definition trace : Path := Path_new ["/home/user/exp/trace.sqlite3"].

(** The trace of [Demo.world] with a read and a repeated observation more. *)
Definition world_more : @World unit :=
  WorldState (fs Demo.world)
    {[trace := Demo.trace_rows ++ [("/etc/hosts", 1%Z); ("/home/user", 4%Z)]]}
    [] [] [] ∅.

Definition fresh_builder : PackBuilder :=
  Builder (TarObj "/home/user/exp.rpz" [] false) (Some ∅).

End DemoMore.

(** * Facts about strings and paths *)

Section StringFacts.

Lemma app_String c s t : String c s +:+ t = String c (s +:+ t).
Proof. reflexivity. Qed.

Lemma app_empty t : "" +:+ t = t.
Proof. reflexivity. Qed.

Lemma app_assoc' s t u : (s +:+ t) +:+ u = s +:+ (t +:+ u).
Proof.
  induction s as [|c s IH]; [reflexivity|].
  rewrite !app_String, IH. reflexivity.
Qed.

Lemma sep_eqb_refl : Ascii.eqb Py.sep Py.sep = true.
Proof. reflexivity. Qed.

Lemma startswith_sep s :
  Py.startswith s "/" = match s with String c _ => Ascii.eqb c Py.sep | _ => false end.
Proof.
  destruct s as [|c s]; [reflexivity|].
  simpl. apply andb_true_r.
Qed.

Lemma split_not_nil s : Py.split s <> [].
Proof.
  destruct s as [|c s]; simpl; [discriminate|].
  destruct (Ascii.eqb c Py.sep); [discriminate|].
  destruct (Py.split s); discriminate.
Qed.

Lemma split_nosep w : Py.has_sep w = false -> Py.split w = [w].
Proof.
  induction w as [|c w IH]; simpl; [reflexivity|].
  intros [Hc Hw]%orb_false_elim. rewrite Hc, (IH Hw). reflexivity.
Qed.

Lemma split_app_sep w s :
  Py.has_sep w = false -> Py.split (w +:+ String Py.sep s) = w :: Py.split s.
Proof.
  induction w as [|c w IH]; intros Hw.
  - rewrite app_empty. simpl. reflexivity.
  - simpl in Hw. apply orb_false_elim in Hw as [Hc Hw].
    rewrite app_String. simpl. rewrite Hc, (IH Hw). reflexivity.
Qed.

Lemma split_elems_nosep s : Forall (fun w => Py.has_sep w = false) (Py.split s).
Proof.
  induction s as [|c s IH]; simpl.
  - constructor; [reflexivity|constructor].
  - destruct (Ascii.eqb c Py.sep) eqn:Hc.
    + constructor; [reflexivity|exact IH].
    + destruct (Py.split s) as [|w ws]; simpl.
      * constructor; [simpl; rewrite Hc; reflexivity|constructor].
      * inversion IH; subst. constructor; [simpl; rewrite Hc; assumption|assumption].
Qed.

Lemma split_join cs :
  cs <> [] -> Forall (fun w => Py.has_sep w = false) cs -> Py.split (Py.join cs) = cs.
Proof.
  induction cs as [|w cs IH]; [congruence|]. intros _ Hall.
  inversion Hall as [|? ? Hw Hcs]; subst.
  destruct cs as [|w' cs].
  - simpl. apply split_nosep, Hw.
  - change (Py.join (w :: w' :: cs)) with (w +:+ String Py.sep (Py.join (w' :: cs))).
    rewrite split_app_sep by assumption. f_equal. apply IH; [discriminate|assumption].
Qed.

Lemma join_snoc cs c :
  cs <> [] -> Py.join (cs ++ [c]) = Py.join cs +:+ String Py.sep c.
Proof.
  induction cs as [|w cs IH]; [congruence|]. intros _.
  destruct cs as [|w' cs]; [reflexivity|].
  change (Py.join ((w :: w' :: cs) ++ [c]))
    with (w +:+ String Py.sep (Py.join ((w' :: cs) ++ [c]))).
  rewrite IH by discriminate.
  change (Py.join (w :: w' :: cs)) with (w +:+ String Py.sep (Py.join (w' :: cs))).
  rewrite app_assoc'. reflexivity.
Qed.

End StringFacts.

Section PathFacts.

Implicit Types (c w : string) (cs : list string) (p q : Path).

Lemma name_ok_inv c :
  name_ok c = true ->
  String.eqb c "" = false /\ String.eqb c "." = false /\
  String.eqb c ".." = false /\ Py.has_sep c = false.
Proof.
  unfold name_ok. rewrite !andb_true_iff, !negb_true_iff. tauto.
Qed.

Lemma names_nosep cs : names cs -> Forall (fun w => Py.has_sep w = false) cs.
Proof.
  intros H. eapply Forall_impl; [exact H|].
  intros c Hc. apply name_ok_inv in Hc. tauto.
Qed.

Lemma name_head c :
  name_ok c = true -> exists a c', c = String a c' /\ Ascii.eqb a Py.sep = false.
Proof.
  intros (H0 & _ & _ & Hs)%name_ok_inv. destruct c as [|a c']; [discriminate|].
  exists a, c'. split; [reflexivity|]. simpl in Hs. apply orb_false_elim in Hs. tauto.
Qed.

Lemma name_not_abs c : name_ok c = true -> Py.startswith c "/" = false.
Proof.
  intros (a & c' & -> & Ha)%name_head. rewrite startswith_sep. exact Ha.
Qed.

Lemma join_cons_head c cs :
  exists t, Py.join (c :: cs) = c +:+ t.
Proof.
  destruct cs as [|c' cs]; [exists ""|exists (String Py.sep (Py.join (c' :: cs)))].
  - simpl. induction c as [|a c IH]; [reflexivity|]. rewrite app_String, <- IH. reflexivity.
  - reflexivity.
Qed.

Lemma join_not_abs cs : names cs -> Py.startswith (Py.join cs) "/" = false.
Proof.
  intros Hcs. destruct cs as [|c cs]; [reflexivity|].
  inversion Hcs as [|? ? Hc _]; subst.
  destruct (join_cons_head c cs) as [t ->].
  apply name_head in Hc as (a & c' & -> & Ha).
  rewrite app_String, startswith_sep. exact Ha.
Qed.

Lemma join_not_empty cs : cs <> [] -> names cs -> String.eqb (Py.join cs) "" = false.
Proof.
  intros Hne Hcs. destruct cs as [|c cs]; [congruence|].
  inversion Hcs as [|? ? Hc _]; subst.
  destruct (join_cons_head c cs) as [t ->].
  apply name_head in Hc as (a & c' & -> & Ha). reflexivity.
Qed.

Lemma norm_step_name i acc c :
  name_ok c = true -> posixpath.norm_step i acc c = acc ++ [c].
Proof.
  intros (H0 & H1 & H2 & _)%name_ok_inv.
  unfold posixpath.norm_step. rewrite H0, H1, H2. reflexivity.
Qed.

Lemma norm_fold_names i cs acc :
  names cs -> fold_left (posixpath.norm_step i) cs acc = acc ++ cs.
Proof.
  intros Hcs. revert acc. induction Hcs as [|c cs Hc _ IH]; intros acc; simpl.
  - rewrite app_nil_r. reflexivity.
  - rewrite norm_step_name by assumption. rewrite IH, <- app_assoc. reflexivity.
Qed.

Lemma initial_slashes_rooted cs :
  names cs -> posixpath.initial_slashes (String Py.sep (Py.join cs)) = 1.
Proof.
  intros Hcs. unfold posixpath.initial_slashes.
  rewrite startswith_sep, sep_eqb_refl.
  change (Py.startswith (String Py.sep (Py.join cs)) "//")
    with (Ascii.eqb Py.sep Py.sep && Py.startswith (Py.join cs) "/").
  rewrite join_not_abs by assumption. reflexivity.
Qed.

Lemma initial_slashes_rel s :
  Py.startswith s "/" = false -> posixpath.initial_slashes s = 0.
Proof. intros H. unfold posixpath.initial_slashes. rewrite H. reflexivity. Qed.

(** [normpath] leaves a well-formed absolute path as it is. *)
Lemma normpath_rooted cs :
  names cs ->
  posixpath.normpath (String Py.sep (Py.join cs)) = String Py.sep (Py.join cs).
Proof.
  intros Hcs. unfold posixpath.normpath.
  change (String.eqb (String Py.sep (Py.join cs)) "") with false. cbv iota.
  rewrite initial_slashes_rooted by assumption.
  change (Py.split (String Py.sep (Py.join cs))) with ("" :: Py.split (Py.join cs)).
  destruct cs as [|c cs].
  - reflexivity.
  - rewrite split_join by (try discriminate; apply names_nosep, Hcs).
    change (fold_left (posixpath.norm_step 1) ("" :: c :: cs) [])
      with (fold_left (posixpath.norm_step 1) (c :: cs) []).
    rewrite norm_fold_names by assumption. reflexivity.
Qed.

(** ... and a relative path made of file names as well. *)
Lemma normpath_rel cs :
  cs <> [] -> names cs -> posixpath.normpath (Py.join cs) = Py.join cs.
Proof.
  intros Hne Hcs. unfold posixpath.normpath.
  rewrite join_not_empty by assumption.
  rewrite initial_slashes_rel by (apply join_not_abs, Hcs).
  rewrite split_join by (try assumption; apply names_nosep, Hcs).
  rewrite norm_fold_names by assumption. simpl.
  rewrite app_empty, join_not_empty by assumption. reflexivity.
Qed.

Lemma endswith_cons a s :
  s <> "" -> Py.endswith_sep (String a s) = Py.endswith_sep s.
Proof. destruct s; [congruence|reflexivity]. Qed.

Lemma endswith_nosep w : Py.has_sep w = false -> Py.endswith_sep w = false.
Proof.
  induction w as [|a w IH]; [reflexivity|]. simpl Py.has_sep.
  intros [Ha Hw]%orb_false_elim. destruct w as [|b w]; [exact Ha|].
  rewrite endswith_cons by discriminate. apply IH, Hw.
Qed.

Lemma endswith_app s t :
  t <> "" -> Py.endswith_sep (s +:+ t) = Py.endswith_sep t.
Proof.
  intros Ht. induction s as [|a s IH]; [reflexivity|].
  rewrite app_String, endswith_cons; [exact IH|].
  destruct s; [exact Ht|discriminate].
Qed.

Lemma join_neq_empty cs : cs <> [] -> names cs -> Py.join cs <> "".
Proof.
  intros Hne Hcs Heq. pose proof (join_not_empty cs Hne Hcs) as H.
  rewrite Heq in H. discriminate.
Qed.

Lemma endswith_join cs :
  cs <> [] -> names cs -> Py.endswith_sep (Py.join cs) = false.
Proof.
  induction cs as [|w cs IH]; [congruence|]. intros _ Hcs.
  inversion Hcs as [|? ? Hw Hcs']; subst.
  destruct cs as [|w' cs].
  - apply endswith_nosep. apply name_ok_inv in Hw. tauto.
  - change (Py.join (w :: w' :: cs)) with (w +:+ String Py.sep (Py.join (w' :: cs))).
    rewrite endswith_app by discriminate.
    rewrite endswith_cons by (apply join_neq_empty; [discriminate|assumption]).
    apply IH; [discriminate|assumption].
Qed.

Lemma Path_new_one s : Path_new [s] = PathObj (posixpath.normpath s).
Proof. reflexivity. Qed.

Lemma Path_new_root : Path_new ["/"] = rooted_at [].
Proof. reflexivity. Qed.

(** Stepping down by one name is appending it. *)
Lemma Path_div_rooted cs c :
  names cs -> name_ok c = true ->
  Path_div (rooted_at cs) c = rooted_at (cs ++ [c]).
Proof.
  intros Hcs Hc. unfold Path_div, Path_new, posixpath.join, rooted_at, pstr.
  simpl fold_left. unfold posixpath.join2.
  rewrite name_not_abs by assumption.
  change (String.eqb (String Py.sep (Py.join cs)) "") with false.
  assert (Hall : names (cs ++ [c])) by (apply Forall_app; split; [assumption|constructor; [assumption|constructor]]).
  destruct cs as [|w cs].
  - simpl. rewrite app_String, app_empty.
    apply (f_equal PathObj). apply (normpath_rooted [c]), Hall.
  - rewrite endswith_cons by (apply join_neq_empty; [discriminate|assumption]).
    rewrite endswith_join by (try discriminate; assumption). simpl orb. cbv iota.
    rewrite app_String, <- join_snoc by discriminate.
    apply (f_equal PathObj). apply normpath_rooted, Hall.
Qed.

Lemma name_not_dot cs : cs <> [] -> names cs -> String.eqb (Py.join cs) "." = false.
Proof.
  intros Hne Hcs. destruct (String.eqb (Py.join cs) ".") eqn:Heq; [|reflexivity].
  apply String.eqb_eq in Heq.
  pose proof (split_join cs Hne (names_nosep cs Hcs)) as Hs.
  rewrite Heq in Hs. simpl in Hs. subst cs.
  inversion Hcs as [|? ? Hc _]; subst. discriminate Hc.
Qed.

Lemma split_root_rooted cs :
  names cs ->
  split_root (rooted_at cs) =
    (PathObj "/", PathObj (match cs with [] => "." | _ => Py.join cs end)).
Proof.
  intros Hcs. unfold split_root, rooted_at, pstr.
  rewrite startswith_sep, sep_eqb_refl. unfold Py.from1.
  rewrite !Path_new_one. f_equal. destruct cs as [|c cs]; [reflexivity|].
  rewrite normpath_rel by (try discriminate; assumption). reflexivity.
Qed.

Lemma components_rooted cs : names cs -> components (rooted_at cs) = "/" :: cs.
Proof.
  intros Hcs. unfold components. rewrite split_root_rooted by assumption.
  simpl pstr. change (String.eqb "/" ".") with false. cbv iota.
  destruct cs as [|c cs]; [reflexivity|].
  rewrite name_not_dot by (try discriminate; assumption).
  rewrite split_join by (try discriminate; apply names_nosep, Hcs). reflexivity.
Qed.

Lemma rooted_at_inj cs1 cs2 :
  names cs1 -> names cs2 -> rooted_at cs1 = rooted_at cs2 -> cs1 = cs2.
Proof.
  intros H1 H2 Heq. apply (f_equal components) in Heq.
  rewrite !components_rooted in Heq by assumption. congruence.
Qed.

(** The archive name of [/c1/.../cn] is [DATA/c1/.../cn]. *)
Lemma data_path_rooted cs :
  names cs -> data_path (rooted_at cs) = PathObj (Py.join ("DATA" :: cs)).
Proof.
  intros Hcs. unfold data_path, data_path_in.
  rewrite split_root_rooted by assumption. cbn [snd pstr].
  destruct cs as [|c cs]; [reflexivity|].
  pose proof (join_not_abs _ Hcs) as Hj.
  change (Path_new ["DATA"]) with (PathObj "DATA").
  unfold Path_div, Path_new, posixpath.join. cbn [fold_left pstr].
  unfold posixpath.join2. rewrite Hj.
  change (String.eqb "DATA" "" || Py.endswith_sep "DATA") with false. cbv iota.
  change ("DATA" +:+ String Py.sep (Py.join (c :: cs))) with (Py.join ("DATA" :: c :: cs)).
  rewrite normpath_rel; [reflexivity|discriminate|].
  constructor; [reflexivity|assumption].
Qed.

Lemma names_removelast cs : names cs -> names (removelast cs).
Proof.
  induction 1 as [|c cs Hc Hcs IH]; [constructor|].
  simpl. destruct cs; [constructor|]. constructor; assumption.
Qed.

Lemma names_last cs : cs <> [] -> names cs -> name_ok (List.last cs "") = true.
Proof.
  intros Hne Hcs. induction Hcs as [|c cs Hc Hcs IH]; [congruence|].
  destruct cs as [|c' cs]; [exact Hc|]. apply IH. discriminate.
Qed.

(** Over an absolute path, the loop of [normpath] keeps file names only. *)
Lemma norm_step_abs acc c :
  Py.has_sep c = false -> names acc -> names (posixpath.norm_step 1 acc c).
Proof.
  intros Hc Hacc. unfold posixpath.norm_step.
  destruct (String.eqb c "") eqn:H0; [exact Hacc|].
  destruct (String.eqb c ".") eqn:H1; [exact Hacc|]. simpl orb at 1. cbv iota.
  destruct (String.eqb c "..") eqn:H2; simpl.
  - destruct acc as [|a acc]; [exact Hacc|].
    pose proof (names_last (a :: acc) ltac:(discriminate) Hacc) as Hl.
    apply name_ok_inv in Hl as (_ & _ & Hl & _). rewrite Hl, andb_false_r.
    apply names_removelast, Hacc.
  - apply Forall_app. split; [exact Hacc|].
    constructor; [|constructor]. unfold name_ok. rewrite H0, H1, H2, Hc. reflexivity.
Qed.

Lemma norm_fold_abs comps acc :
  Forall (fun w => Py.has_sep w = false) comps -> names acc ->
  names (fold_left (posixpath.norm_step 1) comps acc).
Proof.
  intros Hcomps. revert acc.
  induction Hcomps as [|c comps Hc _ IH]; intros acc Hacc; [exact Hacc|].
  simpl. apply IH, norm_step_abs; assumption.
Qed.

(** Whatever absolute string a path is built from, with one leading slash
    (or three and more, which count as one), and whatever [.], [..] and
    doubled separators it holds, the result is well formed. *)
Lemma Path_new_rooted s :
  Py.startswith s "/" = true -> posixpath.initial_slashes s = 1 ->
  rooted (Path_new [s]).
Proof.
  intros Habs Hone. rewrite Path_new_one. unfold posixpath.normpath.
  destruct s as [|a s]; [discriminate|].
  change (String.eqb (String a s) "") with false. cbv iota. rewrite Hone.
  exists (fold_left (posixpath.norm_step 1) (Py.split (String a s)) []).
  split; [|reflexivity].
  apply norm_fold_abs; [apply split_elems_nosep|constructor].
Qed.

Lemma rooted_normal p : rooted p -> Path_new [pstr p] = p.
Proof.
  intros (cs & Hcs & ->). rewrite Path_new_one. unfold rooted_at, pstr.
  rewrite normpath_rooted by assumption. reflexivity.
Qed.

End PathFacts.

(** * PathMapper *)

Section DataPath.

Lemma components_rel cs :
  cs <> [] -> names cs -> components (PathObj (Py.join cs)) = cs.
Proof.
  intros Hne Hcs. unfold components, split_root, pstr.
  rewrite join_not_abs by assumption. rewrite !Path_new_one.
  rewrite normpath_rel by assumption. cbn [pstr].
  change (String.eqb (posixpath.normpath "") ".") with true. cbv iota.
  rewrite name_not_dot by assumption.
  rewrite split_join by (try assumption; apply names_nosep, Hcs). reflexivity.
Qed.

Lemma names_no_dotdot cs : names cs -> ~ In ".." cs.
Proof.
  intros Hcs Hin. unfold names in Hcs. rewrite Forall_forall in Hcs.
  apply list_elem_of_In in Hin. specialize (Hcs _ Hin). discriminate Hcs.
Qed.

(** Distinct lists of file names give distinct archive paths. *)
Lemma data_path_rooted_inj cs1 cs2 :
  names cs1 -> names cs2 ->
  data_path (rooted_at cs1) = data_path (rooted_at cs2) -> cs1 = cs2.
Proof.
  intros H1 H2 Heq. rewrite !data_path_rooted in Heq by assumption.
  apply (f_equal (fun x => Py.split (pstr x))) in Heq. cbn [pstr] in Heq.
  assert (Hd : forall cs, names cs -> Forall (fun w => Py.has_sep w = false) ("DATA" :: cs))
    by (intros cs Hcs; constructor; [reflexivity|apply names_nosep, Hcs]).
  rewrite !split_join in Heq by (try discriminate; apply Hd; assumption).
  congruence.
Qed.

(** C3. [data_path] is injective: two distinct well-formed absolute paths
    never get the same archive path. *)
Theorem data_path_injective (p q : Path) :
  rooted p -> rooted q -> p <> q -> data_path p <> data_path q.
Proof.
  intros (cs1 & H1 & ->) (cs2 & H2 & ->) Hne Heq. apply Hne.
  f_equal. apply data_path_rooted_inj; assumption.
Qed.

(** C8. Whatever absolute string the input path was built from, with its
    [..] segments and doubled separators, the archive path has [DATA] as
    its first segment and no [..] segment; the two documented inputs map
    to [DATA/tmp/test] and [DATA/var/www/index.html]. *)
Theorem data_path_under_DATA :
  (forall s : string,
     Py.startswith s "/" = true -> posixpath.initial_slashes s = 1 ->
     exists cs, components (data_path (Path_new [s])) = "DATA" :: cs /\ ~ In ".." cs)
  /\ data_path (Path_new ["/var/lib/../../../../tmp/test"]) = Path_new ["DATA/tmp/test"]
  /\ data_path (Path_new ["/var/lib/../www/index.html"]) = Path_new ["DATA/var/www/index.html"].
Proof.
  split; [|split; reflexivity].
  intros s Habs Hone.
  destruct (Path_new_rooted s Habs Hone) as (cs & Hcs & ->).
  exists cs. rewrite data_path_rooted by assumption.
  split; [|apply names_no_dotdot, Hcs].
  apply components_rel; [discriminate|]. constructor; [reflexivity|assumption].
Qed.

End DataPath.

Lemma data_path_injective_witness :
  rooted (Path_new ["/etc/hosts"]) /\ rooted (Path_new ["/etc/../etc/passwd"]) /\
  data_path (Path_new ["/etc/hosts"]) <> data_path (Path_new ["/etc/../etc/passwd"]).
Proof.
  assert (H1 : rooted (Path_new ["/etc/hosts"]))
    by (exists ["etc"; "hosts"]; split; [repeat constructor|reflexivity]).
  assert (H2 : rooted (Path_new ["/etc/../etc/passwd"]))
    by (exists ["etc"; "passwd"]; split; [repeat constructor|reflexivity]).
  split; [exact H1|split; [exact H2|]].
  apply (data_path_injective _ _ H1 H2). discriminate.
Defined.

Lemma data_path_under_DATA_witness :
  exists cs,
    components (data_path (Path_new ["/var/lib/../../../../tmp/test"])) = "DATA" :: cs
    /\ ~ In ".." cs.
Proof.
  apply (proj1 data_path_under_DATA "/var/lib/../../../../tmp/test"); reflexivity.
Defined.

(** * File *)

Section FileIdentity.

Context {Runs : Type} {E : @Externals Runs}.

(** C9. Equality and hashing of [File] values look at the path only: with
    the same path two values are equal and hash alike whatever their
    sizes, with different paths they are unequal; and a [File] equals
    nothing that is not a [File]. *)
Theorem File_identity_is_path :
  (forall (p : Path) (size1 size2 : option Z),
     File_eq (FileObj p size1) (ObjFile (FileObj p size2)) = true
     /\ File_hash (FileObj p size1) = File_hash (FileObj p size2))
  /\ (forall a b : File,
        File_eq a (ObjFile b) = bool_decide (File_path a = File_path b))
  /\ (forall a b : File,
        File_path a <> File_path b -> File_eq a (ObjFile b) = false).
Proof.
  split; [|split].
  - intros p s1 s2. split; [|reflexivity].
    unfold File_eq. cbn [File_path]. apply bool_decide_eq_true_2. reflexivity.
  - reflexivity.
  - intros a b Hne. unfold File_eq. apply bool_decide_eq_false_2, Hne.
Qed.

End FileIdentity.

(** * TraceDirectoryExtractor *)

Section ListDirectories.

Context {Runs : Type} {E : @Externals Runs}.

(** C7. From a trace record [list_directories] returns the set that holds
    the observed path of every working-directory observation and the
    parent of the observed path of every write observation, and nothing
    else; the two observations of the example give
    [{/home/user, /home/user/project}]. *)
Theorem list_directories_required (w : @World Runs) (database : Path)
    (rows : list (string * Z)) :
  FILE_WDIR <> FILE_WRITE ->
  sqlite w !! database = Some rows ->
  (exists result,
     list_directories w database = Returned result
     /\ forall d, d ∈ result <-> required_by rows d)
  /\ (rows = [("/home/user", FILE_WDIR); ("/home/user/project/out.txt", FILE_WRITE)] ->
      list_directories w database =
        Returned ({[Path_new ["/home/user"]; Path_new ["/home/user/project"]]})).
Proof.
  intros Hmodes Hdb.
  assert (Hchar : exists result,
     list_directories w database = Returned result
     /\ forall d, d ∈ result <-> required_by rows d).
  { unfold list_directories. rewrite Hdb. eexists. split; [reflexivity|].
    intros d. rewrite elem_of_list_to_set, list_elem_of_fmap. unfold required_by.
    split.
    - intros ([n m] & -> & Hin). cbn [fst snd] in *.
      apply list_elem_of_fmap in Hin as ([n' m'] & [= -> ->] & Hin).
      apply list_elem_of_filter in Hin as [Hm Hin]. cbn [snd fst] in *.
      case_bool_decide as Hw.
      + left. exists n'. subst m'. auto.
      + right. exists n'. destruct Hm as [Hm|Hm]; [contradiction|]. subst m'. auto.
    - intros [(n & Hin & ->)|(n & Hin & ->)].
      + exists (Path_new [n], FILE_WDIR). cbn [fst snd].
        rewrite bool_decide_eq_true_2 by reflexivity. split; [reflexivity|].
        apply list_elem_of_fmap. exists (n, FILE_WDIR). split; [reflexivity|].
        apply list_elem_of_filter. split; [left; reflexivity|exact Hin].
      + exists (Path_new [n], FILE_WRITE). cbn [fst snd].
        rewrite bool_decide_eq_false_2 by congruence. split; [reflexivity|].
        apply list_elem_of_fmap. exists (n, FILE_WRITE). split; [reflexivity|].
        apply list_elem_of_filter. split; [right; reflexivity|exact Hin]. }
  split; [exact Hchar|].
  intros ->. destruct Hchar as (result & -> & Hres). f_equal.
  apply set_eq. intros d. rewrite Hres. unfold required_by.
  rewrite elem_of_union, !elem_of_singleton. split.
  - intros [(n & Hin & ->)|(n & Hin & ->)].
    + apply elem_of_cons in Hin as [[= ->]|Hin]; [left; reflexivity|].
      apply elem_of_cons in Hin as [[= -> Hc]|Hin]; [contradiction|].
      inversion Hin.
    + apply elem_of_cons in Hin as [[= -> Hc]|Hin]; [congruence|].
      apply elem_of_cons in Hin as [[= ->]|Hin]; [right; reflexivity|].
      inversion Hin.
  - intros [->| ->].
    + left. exists "/home/user". split; [left|reflexivity].
    + right. exists "/home/user/project/out.txt". split; [right; left|reflexivity].
Qed.

End ListDirectories.

(** * Parents, ancestors and the walk from the root *)

Section Ancestors.

Implicit Types (c w : string) (cs : list string) (p q : Path).

Lemma has_sep_app s t : Py.has_sep (s +:+ t) = Py.has_sep s || Py.has_sep t.
Proof.
  induction s as [|a s IH]; [reflexivity|].
  rewrite app_String. simpl. rewrite IH, orb_assoc. reflexivity.
Qed.

Lemma all_sep_app s t : Py.all_sep (s +:+ t) = Py.all_sep s && Py.all_sep t.
Proof.
  induction s as [|a s IH]; [reflexivity|].
  rewrite app_String. simpl. rewrite IH, andb_assoc. reflexivity.
Qed.

Lemma all_sep_endswith s :
  s <> "" -> Py.all_sep s = true -> Py.endswith_sep s = true.
Proof.
  induction s as [|a s IH]; [congruence|]. intros _. simpl Py.all_sep.
  intros [Ha Hs]%andb_true_iff. destruct s as [|b s]; [exact Ha|].
  rewrite endswith_cons by discriminate. apply IH; [discriminate|exact Hs].
Qed.

Lemma upto_last_sep_app s c :
  Py.has_sep c = false ->
  Py.upto_last_sep (s +:+ String Py.sep c) = s +:+ String Py.sep "".
Proof.
  intros Hc. induction s as [|a s IH].
  - rewrite !app_empty. simpl. rewrite Hc. reflexivity.
  - rewrite !app_String. simpl Py.upto_last_sep.
    rewrite has_sep_app. simpl Py.has_sep. rewrite orb_true_r, IH. reflexivity.
Qed.

Lemma rstrip_sep_app s :
  s <> "" -> Py.endswith_sep s = false ->
  Py.rstrip_sep (s +:+ String Py.sep "") = s.
Proof.
  induction s as [|a s IH]; [congruence|]. intros _ Hend.
  rewrite app_String. simpl Py.rstrip_sep. destruct s as [|b s].
  - simpl in Hend. rewrite app_empty. simpl. rewrite Hend. reflexivity.
  - rewrite endswith_cons in Hend by discriminate.
    rewrite all_sep_app.
    destruct (Py.all_sep (String b s)) eqn:Hall.
    + apply all_sep_endswith in Hall; [congruence|discriminate].
    + simpl andb. cbv iota. rewrite IH by (try discriminate; assumption). reflexivity.
Qed.

Lemma names_app_l cs cs' : names (cs ++ cs') -> names cs.
Proof. intros H. apply Forall_app in H. tauto. Qed.

Lemma names_app_r cs cs' : names (cs ++ cs') -> names cs'.
Proof. intros H. apply Forall_app in H. tauto. Qed.

Lemma names_take k cs : names cs -> names (take k cs).
Proof. apply Forall_take. Qed.

Lemma dirname_rooted cs c :
  names (cs ++ [c]) ->
  posixpath.dirname (String Py.sep (Py.join (cs ++ [c]))) = String Py.sep (Py.join cs).
Proof.
  intros Hall. pose proof (names_app_l _ _ Hall) as Hcs.
  apply names_app_r in Hall. inversion Hall as [|? ? Hc _]; subst.
  apply name_ok_inv in Hc as (_ & _ & _ & Hc).
  unfold posixpath.dirname. destruct cs as [|w cs].
  - simpl. rewrite Hc. reflexivity.
  - rewrite join_snoc by discriminate. rewrite <- app_String.
    rewrite upto_last_sep_app by assumption.
    rewrite all_sep_app. simpl Py.all_sep at 2. rewrite andb_true_r.
    replace (Py.all_sep (String Py.sep (Py.join (w :: cs)))) with false.
    + rewrite app_String at 1. simpl andb. cbv iota.
      apply rstrip_sep_app; [discriminate|].
      rewrite endswith_cons by (apply join_neq_empty; [discriminate|assumption]).
      apply endswith_join; [discriminate|assumption].
    + symmetry. destruct (Py.all_sep (String Py.sep (Py.join (w :: cs)))) eqn:Hall'; [|reflexivity].
      apply all_sep_endswith in Hall'; [|discriminate].
      rewrite endswith_cons in Hall' by (apply join_neq_empty; [discriminate|assumption]).
      rewrite endswith_join in Hall' by (try discriminate; assumption). discriminate.
Qed.

(** The parent of [/c1/.../cn/c] is [/c1/.../cn]; the root is its own
    parent. *)
Lemma parent_rooted cs c :
  names (cs ++ [c]) -> parent (rooted_at (cs ++ [c])) = rooted_at cs.
Proof.
  intros Hall. unfold parent, rooted_at at 1, pstr.
  rewrite dirname_rooted by assumption. rewrite Path_new_one.
  rewrite normpath_rooted by (eapply names_app_l, Hall). reflexivity.
Qed.

Lemma parent_root : parent (rooted_at []) = rooted_at [].
Proof. reflexivity. Qed.

Lemma parent_rooted_removelast cs :
  names cs -> parent (rooted_at cs) = rooted_at (removelast cs).
Proof.
  intros Hcs. destruct (decide (cs = [])) as [->|Hne]; [reflexivity|].
  destruct (exists_last Hne) as (cs' & c & ->).
  rewrite removelast_last. apply parent_rooted, Hcs.
Qed.

Lemma removelast_take (cs : list string) k :
  k < length cs -> removelast (take (S k) cs) = take k cs.
Proof.
  revert k. induction cs as [|c cs IH]; intros k Hk; simpl in *; [lia|].
  destruct k as [|k].
  - rewrite take_0. reflexivity.
  - destruct cs as [|c' cs]; simpl in *; [lia|].
    f_equal. apply (IH k). lia.
Qed.

Lemma iter_parent_rooted k cs :
  names cs ->
  Nat.iter k parent (rooted_at cs) = rooted_at (take (length cs - k) cs).
Proof.
  intros Hcs. induction k as [|k IH].
  - simpl. rewrite Nat.sub_0_r, firstn_all. reflexivity.
  - simpl. rewrite IH. rewrite parent_rooted_removelast by (apply names_take, Hcs).
    f_equal. destruct (decide (length cs <= k)) as [Hle|Hgt].
    + replace (length cs - k) with 0 by lia. replace (length cs - S k) with 0 by lia.
      rewrite take_0. reflexivity.
    + replace (length cs - k) with (S (length cs - S k)) by lia.
      apply removelast_take. lia.
Qed.

(** The proper ancestors of [/c1/.../cn] are its proper prefixes. *)
Lemma proper_ancestor_rooted a cs :
  names cs ->
  proper_ancestor a (rooted_at cs) <->
  exists k, k < length cs /\ a = rooted_at (take k cs).
Proof.
  intros Hcs. unfold proper_ancestor. split.
  - intros [Hne (k & ->)]. rewrite iter_parent_rooted in * by assumption.
    exists (length cs - k). split; [|reflexivity].
    destruct (decide (length cs - k = length cs)) as [Heq|]; [|lia].
    rewrite Heq, firstn_all in Hne. congruence.
  - intros (k & Hk & ->). split.
    + intros Heq. apply rooted_at_inj in Heq; [|apply names_take, Hcs|exact Hcs].
      apply (f_equal (@length string)) in Heq. rewrite length_take in Heq. lia.
    + exists (length cs - k). rewrite iter_parent_rooted by assumption.
      f_equal. f_equal. lia.
Qed.

Lemma walk_rooted pre cs :
  names (pre ++ cs) ->
  walk (rooted_at pre) cs =
    (fun k => rooted_at (pre ++ take k cs)) <$> seq 1 (length cs).
Proof.
  revert pre. induction cs as [|c cs IH]; intros pre Hall; [reflexivity|].
  pose proof (names_app_l _ _ Hall) as Hpre.
  assert (Hc : name_ok c = true).
  { apply names_app_r in Hall. inversion Hall; assumption. }
  assert (Hall' : names ((pre ++ [c]) ++ cs)) by (rewrite <- app_assoc; exact Hall).
  simpl walk. rewrite Path_div_rooted by assumption. rewrite IH by assumption.
  simpl length. simpl seq. rewrite fmap_cons. f_equal.
  rewrite <- (fmap_S_seq 1), <- list_fmap_compose.
  apply list_fmap_ext. intros i k _. simpl. rewrite <- app_assoc. reflexivity.
Qed.

Lemma walk_root cs :
  names cs ->
  walk (Path_new ["/"]) cs = (fun k => rooted_at (take k cs)) <$> seq 1 (length cs).
Proof. intros Hcs. rewrite Path_new_root. apply (walk_rooted [] cs Hcs). Qed.

Lemma elem_of_walk_root cs q :
  names cs ->
  q ∈ walk (Path_new ["/"]) cs <->
  exists k, 1 <= k <= length cs /\ q = rooted_at (take k cs).
Proof.
  intros Hcs. rewrite walk_root by assumption. rewrite list_elem_of_fmap.
  split.
  - intros (k & -> & Hk). exists k. apply elem_of_seq in Hk. split; [lia|reflexivity].
  - intros (k & Hk & ->). exists k. split; [reflexivity|]. apply elem_of_seq. lia.
Qed.

Lemma rooted_at_root_iff cs : names cs -> rooted_at cs = Path_new ["/"] <-> cs = [].
Proof.
  intros Hcs. split; [|intros ->; reflexivity].
  rewrite Path_new_root. intros H. apply rooted_at_inj in H; [exact H|exact Hcs|constructor].
Qed.

(** The walk to [f] visits [f] and its proper ancestors, the root left
    out. *)
Lemma elem_of_walk_ancestor cs q :
  names cs ->
  q ∈ walk (Path_new ["/"]) cs <->
  q <> Path_new ["/"] /\ (q = rooted_at cs \/ proper_ancestor q (rooted_at cs)).
Proof.
  intros Hcs. rewrite elem_of_walk_root by assumption.
  rewrite proper_ancestor_rooted by assumption. split.
  - intros (k & Hk & ->). split.
    + rewrite rooted_at_root_iff by (apply names_take, Hcs).
      intros Heq. apply (f_equal (@length string)) in Heq.
      rewrite length_take in Heq. simpl in Heq. lia.
    + destruct (decide (k = length cs)) as [->|].
      * left. rewrite firstn_all. reflexivity.
      * right. exists k. split; [lia|reflexivity].
  - intros [Hroot [->|(k & Hk & ->)]].
    + exists (length cs). rewrite firstn_all. split; [|reflexivity].
      destruct cs; [contradiction Hroot; reflexivity|simpl; lia].
    + exists k. split; [|reflexivity]. split; [|lia].
      destruct k; [|lia]. rewrite take_0 in Hroot. contradiction Hroot. reflexivity.
Qed.

End Ancestors.

(** * ArchiveBuilder *)

Global Arguments Path_new : simpl never.
Global Arguments Path_div : simpl never.
Global Arguments data_path : simpl never.
Global Arguments components : simpl never.
Global Arguments parent : simpl never.

Section Fresh.

Implicit Types (s : gset Path) (l ds : list Path) (p q : Path).

Lemma elem_of_fresh s l p : p ∈ fresh s l <-> p ∈ l /\ p ∉ s.
Proof.
  revert s. induction l as [|x l IH]; intros s; simpl.
  - split; [inversion 1|intros [H _]; inversion H].
  - case_bool_decide as Hx.
    + rewrite IH, elem_of_cons. split; [tauto|].
      intros [[->|H] Hn]; [contradiction|tauto].
    + rewrite !elem_of_cons, IH, not_elem_of_union, elem_of_singleton.
      split; [intros [->|(H & Hn & _)]; tauto|].
      intros [[->|H] Hn]; [tauto|].
      destruct (decide (p = x)); tauto.
Qed.





End Fresh.

Section Builder.

Context {Runs : Type}.

Implicit Types (w : @World Runs) (t : TarFile) (s : gset Path) (self : PackBuilder).

Lemma logged_nil w : logged [] w = w.
Proof. destruct w. unfold logged. simpl. rewrite app_nil_r. reflexivity. Qed.

Lemma logged_logged l1 l2 w : logged l2 (logged l1 w) = logged (l1 ++ l2) w.
Proof. unfold logged. simpl. rewrite app_assoc. reflexivity. Qed.

(** What the loop of [add_data] does, in one equation: it logs and
    writes the walked paths met for the first time, in order, and adds
    them to the ledger. *)
Lemma add_data_loop_eq cs path t s w :
  closed t = false ->
  add_data_loop path cs t s w =
    (logged (debug_line <$> fresh s (walk path cs)) w,
     Returned (TarObj (tar_name t)
                 (members t ++ (data_entry <$> fresh s (walk path cs))) false,
               s ∪ list_to_set (fresh s (walk path cs)))).
Proof.
  revert path t s w. induction cs as [|c cs IH]; intros path t s w Ht.
  - simpl. unfold ret. rewrite logged_nil, app_nil_r, union_empty_r_L.
    destruct t; simpl in *; subst; reflexivity.
  - cbn [add_data_loop walk fresh]. case_bool_decide as Hin.
    + apply IH, Ht.
    + unfold bind at 1. unfold log, effect.
      unfold bind at 1. unfold TarFile_add. rewrite Ht. unfold ret at 1.
      rewrite IH by reflexivity. cbn [tar_name members].
      change (with_log DEBUG (pstr (Path_div path c) +:+ " -> "
                              +:+ pstr (data_path (Path_div path c))) w)
        with (logged [debug_line (Path_div path c)] w).
      rewrite logged_logged, <- app_assoc. cbn [fmap list_fmap app].
      do 3 f_equal. apply set_eq. intros x.
      rewrite !elem_of_union, !elem_of_list_to_set, elem_of_cons, elem_of_singleton.
      tauto.
Qed.

(** [add_data] on an open builder, for any argument. *)
Lemma add_data_eq self s filename w :
  seen self = Some s -> closed (tar self) = false ->
  add_data self filename w =
    (logged (debug_line <$> added s filename) w,
     Returned (Builder (TarObj (tar_name (tar self))
                          (members (tar self) ++ (data_entry <$> added s filename))
                          false)
                       (Some (s ∪ list_to_set (added s filename))))).
Proof.
  intros Hs Ht. unfold add_data, added. rewrite Hs. case_bool_decide as Hin.
  - unfold ret. simpl. rewrite logged_nil, app_nil_r, union_empty_r_L.
    destruct self as [[n m c] sn]; simpl in *; subst; reflexivity.
  - unfold bind. rewrite add_data_loop_eq by exact Ht. reflexivity.
Qed.

Lemma PackBuilder_add_eq self name arcname w :
  closed (tar self) = false ->
  PackBuilder_add self name arcname w =
    (w, Returned (Builder (TarObj (tar_name (tar self))
                             (members (tar self) ++ [Entry (pstr name) (pstr arcname) true])
                             false)
                          (seen self))).
Proof.
  intros Ht. unfold PackBuilder_add, bind, TarFile_add. rewrite Ht. reflexivity.
Qed.

End Builder.

Section Ledger.

Context {Runs : Type}.

Implicit Types (w : @World Runs) (self : PackBuilder) (ds : list Path).













End Ledger.

(** * PatternExpander *)

Section ExpandPatterns.

Context {Runs : Type} {E : @Externals Runs}.

Implicit Types (w : @World Runs) (p q : Path).

Lemma walk_down_walk cs : forall path acc,
  walk_down path cs acc = acc ∪ list_to_set (walk path cs).
Proof.
  induction cs as [|c cs IH]; intros path acc.
  - cbn [walk_down walk list_to_set foldr]. rewrite union_empty_r_L. reflexivity.
  - cbn [walk_down walk]. rewrite IH. apply set_eq. intros x.
    rewrite !elem_of_union, !elem_of_list_to_set, elem_of_cons, elem_of_singleton.
    tauto.
Qed.

(** The second loop puts every matched path itself, not only the
    directories above it, into [non_empty_dirs]. *)
Lemma non_empty_dirs_self l : forall acc p,
  Path_new ["/"] ∈ acc -> rooted p -> p ∈ acc \/ p ∈ l ->
  p ∈ fold_left
        (fun non_empty_dirs p =>
           walk_down (Path_new ["/"]) (drop 1 (components p)) non_empty_dirs)
        l acc.
Proof.
  induction l as [|x l IH]; intros acc p Hroot Hp Hin.
  - destruct Hin as [Hin|Hin]; [exact Hin|]. apply elem_of_nil in Hin. contradiction.
  - cbn [fold_left]. rewrite walk_down_walk. apply IH; [|exact Hp|].
    + apply elem_of_union. left. exact Hroot.
    + destruct Hin as [Hin|Hin]; [left; apply elem_of_union; left; exact Hin|].
      apply elem_of_cons in Hin as [->|Hin]; [|right; exact Hin].
      left. apply elem_of_union. destruct Hp as (cs & Hcs & ->).
      rewrite components_rooted by assumption. change (drop 1 ("/" :: cs)) with cs.
      destruct cs as [|c cs]; [left; exact Hroot|right].
      apply elem_of_list_to_set, elem_of_walk_ancestor; [exact Hcs|].
      split; [|left; reflexivity].
      rewrite rooted_at_root_iff by assumption. discriminate.
Qed.

Lemma expand_match_from w acc path :
  forall p, p ∈ (expand_match w acc path).1 ∪ (expand_match w acc path).2 ->
            p ∈ acc.1 ∪ acc.2 \/ p = path.
Proof.
  intros p. destruct acc as [files dirs]. unfold expand_match.
  destruct (is_dir w path); cbn [fst snd];
    rewrite !elem_of_union, elem_of_singleton; tauto.
Qed.

Lemma expand_matches_from w patterns p :
  p ∈ (expand_matches w patterns).1 ∪ (expand_matches w patterns).2 ->
  exists pattern, pattern ∈ patterns /\ p ∈ recursedir w (Path_new ["/"]) pattern.
Proof.
  unfold expand_matches.
  assert (Hinner : forall l acc, p ∈ (fold_left (expand_match w) l acc).1
                                     ∪ (fold_left (expand_match w) l acc).2 ->
                                 p ∈ acc.1 ∪ acc.2 \/ p ∈ l).
  { induction l as [|x l IH]; intros acc Hin; [left; exact Hin|].
    cbn [fold_left] in Hin. apply IH in Hin as [Hin|Hin].
    - apply expand_match_from in Hin as [Hin| ->]; [left; exact Hin|right; left].
    - right. right. exact Hin. }
  assert (Hgen : forall pats acc,
    p ∈ (fold_left (fun acc pattern =>
           fold_left (expand_match w) (recursedir w (Path_new ["/"]) pattern) acc)
           pats acc).1
        ∪ (fold_left (fun acc pattern =>
           fold_left (expand_match w) (recursedir w (Path_new ["/"]) pattern) acc)
           pats acc).2 ->
    p ∈ acc.1 ∪ acc.2
    \/ exists pattern, pattern ∈ pats /\ p ∈ recursedir w (Path_new ["/"]) pattern).
  { induction pats as [|pat pats IH]; intros acc Hin; [left; exact Hin|].
    cbn [fold_left] in Hin. apply IH in Hin as [Hin|(pattern & Hpat & Hin)].
    - apply Hinner in Hin as [Hin|Hin]; [left; exact Hin|].
      right. exists pat. split; [left|exact Hin].
    - right. exists pattern. split; [right; exact Hpat|exact Hin]. }
  intros Hin. apply Hgen in Hin as [Hin|Hin]; [|exact Hin].
  cbn [fst snd] in Hin. rewrite elem_of_union in Hin.
  destruct Hin as [Hin|Hin]; apply elem_of_empty in Hin; contradiction.
Qed.

(** Whatever the walk yields, as long as it yields well-formed absolute
    paths, [expand_patterns] returns the matched files and no directory. *)
Lemma expand_patterns_only_files w patterns :
  (forall pattern p, p ∈ recursedir w (Path_new ["/"]) pattern -> rooted p) ->
  expand_patterns w patterns = File_new w <$> elements (expand_matches w patterns).1.
Proof.
  intros Hrooted. unfold expand_patterns.
  pose proof (expand_matches_from w patterns) as Hfrom.
  destruct (expand_matches w patterns) as [files dirs]. cbn [fst snd] in *.
  replace (dirs ∖ non_empty_dirs_of (elements (files ∪ dirs))) with (∅ : gset Path).
  - rewrite elements_empty. reflexivity.
  - symmetry. apply set_eq. intros p. rewrite elem_of_difference. split.
    + intros [Hd Hn]. exfalso. apply Hn. unfold non_empty_dirs_of.
      apply non_empty_dirs_self.
      * apply elem_of_singleton. reflexivity.
      * destruct (Hfrom p) as (pattern & _ & Hin); [apply elem_of_union; right; exact Hd|].
        apply (Hrooted pattern p Hin).
      * right. apply elem_of_elements, elem_of_union. right. exact Hd.
    + intros Hin. apply elem_of_empty in Hin. contradiction.
Qed.

End ExpandPatterns.

(** C1. On a snapshot where the pattern matches one directory, [/srv],
    which holds nothing and lies above no other matched path,
    PatternExpander is to return that directory; [expand_patterns]
    returns nothing. *)
Theorem expand_patterns_drops_lone_directory :
  let E := Demo.env [] [] [] in
  let srv := Path_new ["/srv"] in
  expand_matches Demo.world ["srv"] = (∅, {[srv]})
  /\ expected_pattern_entry Demo.world ["srv"] srv
  /\ expand_patterns Demo.world ["srv"] = [].
Proof.
  intros E srv.
  assert (Hm : expand_matches Demo.world ["srv"] = (∅, {[srv]})) by (vm_compute; reflexivity).
  split; [exact Hm|]. split; [|vm_compute; reflexivity].
  unfold expected_pattern_entry. rewrite Hm. right. split.
  - apply elem_of_singleton. reflexivity.
  - intros (q & Hq & Hne & _). apply Hne. symmetry.
    rewrite elem_of_union, elem_of_singleton in Hq.
    destruct Hq as [Hq|Hq]; [apply elem_of_empty in Hq; contradiction|exact Hq].
Qed.

(** * Orchestrator *)

Section PackLoops.

Context {Runs : Type} {E : @Externals Runs}.

Implicit Types (w : @World Runs) (self b : PackBuilder) (f : File).

Lemma bind_get {A} (k : World -> M A) w : bind get_world k w = k w w.
Proof. reflexivity. Qed.

Lemma bind_log {A} l msg (k : unit -> M A) w :
  bind (log l msg) k w = k tt (logged [(l, msg)] w).
Proof. reflexivity. Qed.

Lemma bind_returned {A B} (c : M A) (k : A -> M B) w w' a :
  c w = (w', Returned a) -> bind c k w = k a w'.
Proof. intros H. unfold bind. rewrite H. reflexivity. Qed.

Lemma on_disk_logged recs w f : on_disk (logged recs w) f = on_disk w f.
Proof. reflexivity. Qed.

Lemma added_walk s filename p :
  p ∈ added s filename ->
  p ∈ walk (Path_new ["/"]) (drop 1 (components filename)).
Proof.
  unfold added. case_bool_decide as Hseen.
  - intros Hin. apply elem_of_nil in Hin. contradiction.
  - intros Hin. apply elem_of_fresh in Hin. tauto.
Qed.

Lemma added_self s filename :
  rooted filename -> filename <> Path_new ["/"] ->
  filename ∈ s ∪ list_to_set (added s filename).
Proof.
  intros (cs & Hcs & ->) Hroot. apply elem_of_union.
  destruct (decide (rooted_at cs ∈ s)) as [Hin|Hnin]; [left; exact Hin|right].
  apply elem_of_list_to_set. unfold added.
  rewrite bool_decide_eq_false_2 by exact Hnin.
  apply elem_of_fresh. split; [|exact Hnin].
  rewrite components_rooted by assumption. change (drop 1 ("/" :: cs)) with cs.
  apply elem_of_walk_ancestor; [exact Hcs|]. split; [exact Hroot|left; reflexivity].
Qed.

(** One call of [add_data] on an open builder: it returns, logs at
    [DEBUG] only, and appends entries for walked paths. *)
Lemma add_data_open self filename w :
  open_builder self ->
  exists new self',
    add_data self filename w = (logged (debug_line <$> new) w, Returned self')
    /\ open_builder self'
    /\ tar_name (tar self') = tar_name (tar self)
    /\ members (tar self') = members (tar self) ++ (data_entry <$> new)
    /\ (forall p, p ∈ new -> p ∈ walk (Path_new ["/"]) (drop 1 (components filename)))
    /\ (rooted filename -> filename <> Path_new ["/"] ->
        data_entry filename ∈ members (tar self')).
Proof.
  intros (Hopen & s & Hseen & Hrec).
  exists (added s filename). eexists. split; [apply (add_data_eq _ _ _ _ Hseen Hopen)|].
  cbn [tar seen closed tar_name members].
  assert (Hrec' : forall q, q ∈ s ∪ list_to_set (added s filename) ->
            data_entry q ∈ members (tar self) ++ (data_entry <$> added s filename)).
  { intros q [Hq|Hq]%elem_of_union; apply elem_of_app.
    - left. apply Hrec, Hq.
    - right. apply list_elem_of_fmap. exists q. split; [reflexivity|].
      apply elem_of_list_to_set in Hq. exact Hq. }
  split; [|split; [reflexivity|split; [reflexivity|split]]].
  - split; [reflexivity|]. eexists. split; [reflexivity|exact Hrec'].
  - apply added_walk.
  - intros Hr Hn. apply Hrec', added_self; assumption.
Qed.

Lemma debug_line_not_warning (new : list Path) m :
  (WARNING, m) ∈ debug_line <$> new -> False.
Proof.
  intros (p & Heq & _)%list_elem_of_fmap. discriminate Heq.
Qed.

(** The loop over a list of files: it returns; the files kept are those
    on disk, in order; each missing file gets its warning and nothing
    else does; the entries written belong to files on disk; and each
    file on disk has its entry. *)
Lemma pack_files_spec warning fl : forall b files w,
  open_builder b ->
  exists recs b' es,
    pack_files warning fl b files w =
      (logged recs w,
       Returned (b', files ++ filter (fun f => on_disk w f = true) fl))
    /\ open_builder b'
    /\ tar_name (tar b') = tar_name (tar b)
    /\ members (tar b') = members (tar b) ++ es
    /\ Forall (entry_for w fl) es
    /\ (forall m, (WARNING, m) ∈ recs <->
                  exists f, f ∈ fl /\ on_disk w f = false /\ m = warning f)
    /\ (forall f, f ∈ fl -> on_disk w f = true ->
                  rooted (File_path f) -> File_path f <> Path_new ["/"] ->
                  data_entry (File_path f) ∈ members (tar b')).
Proof.
  induction fl as [|f fl IH]; intros b files w Hopen.
  - exists [], b, []. cbn [pack_files]. unfold ret.
    rewrite logged_nil, filter_nil, !app_nil_r.
    split; [reflexivity|]. split; [exact Hopen|]. do 2 (split; [reflexivity|]).
    split; [constructor|]. split.
    + intros m. rewrite elem_of_nil. split; [tauto|].
      intros (f & Hf & _). apply elem_of_nil in Hf. exact Hf.
    + intros f Hf. apply elem_of_nil in Hf. contradiction.
  - cbn [pack_files]. rewrite bind_get.
    change (path_exists w (Path_new [pstr (File_path f)])) with (on_disk w f).
    destruct (on_disk w f) eqn:Hf; cbn [negb].
    + destruct (add_data_open b (File_path f) w Hopen)
        as (new & b1 & Hrun & Hopen1 & Hname1 & Hmem1 & Hwalk & Hself).
      rewrite (bind_returned _ _ _ _ _ Hrun).
      destruct (IH b1 (files ++ [f]) (logged (debug_line <$> new) w) Hopen1)
        as (recs & b' & es & Hrun' & Hopen' & Hname' & Hmem' & Hes & Hwarn & Hin).
      exists ((debug_line <$> new) ++ recs), b', ((data_entry <$> new) ++ es).
      rewrite Hrun', logged_logged, filter_cons_True, <- app_assoc by exact Hf.
      split; [reflexivity|]. split; [exact Hopen'|].
      split; [congruence|]. split; [rewrite Hmem', Hmem1, app_assoc; reflexivity|].
      split; [|split].
      * apply Forall_app. split.
        -- apply Forall_forall. intros e (p & -> & Hp)%list_elem_of_fmap.
           exists f, p. split; [left|]. split; [exact Hf|]. split; [apply Hwalk, Hp|reflexivity].
        -- eapply Forall_impl; [exact Hes|]. intros e (f' & p & Hf' & Hon & Hp & ->).
           exists f', p. split; [right; exact Hf'|]. split; [exact Hon|]. split; [exact Hp|reflexivity].
      * intros m. rewrite elem_of_app, Hwarn. split.
        -- intros [Hd|(f' & Hf' & Hoff & ->)]; [destruct (debug_line_not_warning _ _ Hd)|].
           exists f'. split; [right; exact Hf'|]. split; [exact Hoff|reflexivity].
        -- intros (f' & Hf' & Hoff & ->). right.
           apply elem_of_cons in Hf' as [->|Hf']; [congruence|].
           exists f'. split; [exact Hf'|]. split; [exact Hoff|reflexivity].
      * intros f' Hf' Hon Hr Hn. apply elem_of_cons in Hf' as [->|Hf'].
        -- rewrite Hmem'. apply elem_of_app. left. apply Hself; assumption.
        -- apply Hin; assumption.
    + rewrite bind_log.
      destruct (IH b files (logged [(WARNING, warning f)] w) Hopen)
        as (recs & b' & es & Hrun' & Hopen' & Hname' & Hmem' & Hes & Hwarn & Hin).
      exists ([(WARNING, warning f)] ++ recs), b', es.
      rewrite Hrun', logged_logged, filter_cons_False by congruence.
      split; [reflexivity|]. split; [exact Hopen'|].
      split; [exact Hname'|]. split; [exact Hmem'|]. split; [|split].
      * eapply Forall_impl; [exact Hes|]. intros e (f' & p & Hf' & Hon & Hp & ->).
        exists f', p. split; [right; exact Hf'|]. split; [exact Hon|]. split; [exact Hp|reflexivity].
      * intros m. rewrite elem_of_app, Hwarn, list_elem_of_singleton. split.
        -- intros [[= ->]|(f' & Hf' & Hoff & ->)].
           ++ exists f. split; [left|]. split; [exact Hf|reflexivity].
           ++ exists f'. split; [right; exact Hf'|]. split; [exact Hoff|reflexivity].
        -- intros (f' & Hf' & Hoff & ->).
           apply elem_of_cons in Hf' as [->|Hf']; [left; reflexivity|right].
           exists f'. split; [exact Hf'|]. split; [exact Hoff|reflexivity].
      * intros f' Hf' Hon Hr Hn. apply elem_of_cons in Hf' as [->|Hf'].
        -- congruence.
        -- apply Hin; assumption.
Qed.

(** The loop over the packages: it returns the packages pruned, each at
    its place; the warnings are those for the missing files of packages
    with [packfiles]; the entries belong to files on disk of such
    packages. *)
Lemma pack_packages_spec packages : forall b w,
  open_builder b ->
  exists recs b' es,
    pack_packages packages b w = (logged recs w, Returned (b', prune w <$> packages))
    /\ open_builder b'
    /\ tar_name (tar b') = tar_name (tar b)
    /\ members (tar b') = members (tar b) ++ es
    /\ Forall (fun e => exists pkg, pkg ∈ packages /\ Package_packfiles pkg = true
                                  /\ entry_for w (Package_files pkg) e) es
    /\ (forall m, (WARNING, m) ∈ recs <->
                  exists pkg f, pkg ∈ packages /\ Package_packfiles pkg = true
                                /\ f ∈ Package_files pkg /\ on_disk w f = false
                                /\ m = missing_from pkg f)
    /\ (forall pkg f, pkg ∈ packages -> Package_packfiles pkg = true ->
                      f ∈ Package_files pkg -> on_disk w f = true ->
                      rooted (File_path f) -> File_path f <> Path_new ["/"] ->
                      data_entry (File_path f) ∈ members (tar b')).
Proof.
  induction packages as [|pkg packages IH]; intros b w Hopen.
  - exists [], b, []. cbn [pack_packages]. unfold ret. rewrite logged_nil, app_nil_r.
    split; [reflexivity|]. split; [exact Hopen|]. do 2 (split; [reflexivity|]).
    split; [constructor|]. split.
    + intros m. rewrite elem_of_nil. split; [tauto|].
      intros (pkg & f & Hpkg & _). apply elem_of_nil in Hpkg. exact Hpkg.
    + intros pkg f Hpkg. apply elem_of_nil in Hpkg. contradiction.
  - cbn [pack_packages]. destruct (Package_packfiles pkg) eqn:Hpf.
    + set (info := (INFO, "Adding files from package " +:+ Package_name pkg +:+ "...")).
      destruct (pack_files_spec (missing_from pkg) (Package_files pkg) b [] (logged [info] w) Hopen)
        as (recs1 & b1 & es1 & Hrun1 & Hopen1 & Hname1 & Hmem1 & Hes1 & Hwarn1 & Hin1).
      destruct (IH b1 (logged ([info] ++ recs1) w) Hopen1)
        as (recs & b' & es & Hrun' & Hopen' & Hname' & Hmem' & Hes & Hwarn & Hin).
      exists (([info] ++ recs1) ++ recs), b', (es1 ++ es).
      split; [|split; [exact Hopen'|split; [congruence|split;
                [rewrite Hmem', Hmem1, app_assoc; reflexivity|split; [|split]]]]].
      * erewrite bind_returned;
          [|rewrite bind_log; erewrite bind_returned; [|exact Hrun1];
            unfold ret; rewrite logged_logged; reflexivity].
        cbn [fst snd]. erewrite bind_returned; [|exact Hrun']. unfold ret.
        rewrite logged_logged. cbn [fst snd fmap list_fmap].
        unfold prune at 2. rewrite Hpf. reflexivity.
      * apply Forall_app. split.
        -- eapply Forall_impl; [exact Hes1|]. intros e He. exists pkg.
           split; [left|]. split; [exact Hpf|exact He].
        -- eapply Forall_impl; [exact Hes|]. intros e (pkg' & Hpkg' & Hpf' & He).
           exists pkg'. split; [right; exact Hpkg'|]. split; [exact Hpf'|exact He].
      * intros m. rewrite !elem_of_app, Hwarn, Hwarn1, list_elem_of_singleton. split.
        -- intros [[Hi|(f & Hf & Hoff & ->)]|(pkg' & f & Hpkg' & Hpf' & Hf & Hoff & ->)].
           ++ discriminate Hi.
           ++ exists pkg, f. split; [left|]. repeat (split; [assumption|]). reflexivity.
           ++ exists pkg', f. split; [right; exact Hpkg'|].
              repeat (split; [assumption|]). reflexivity.
        -- intros (pkg' & f & Hpkg' & Hpf' & Hf & Hoff & ->).
           apply elem_of_cons in Hpkg' as [->|Hpkg'].
           ++ left. right. exists f. repeat (split; [assumption|]). reflexivity.
           ++ right. exists pkg', f. repeat (split; [assumption|]). reflexivity.
      * intros pkg' f Hpkg' Hpf' Hf Hon Hr Hn. apply elem_of_cons in Hpkg' as [->|Hpkg'].
        -- rewrite Hmem'. apply elem_of_app. left. apply Hin1; assumption.
        -- apply (Hin pkg' f); assumption.
    + set (info := (INFO, "NOT adding files from package " +:+ Package_name pkg)).
      destruct (IH b (logged [info] w) Hopen)
        as (recs & b' & es & Hrun' & Hopen' & Hname' & Hmem' & Hes & Hwarn & Hin).
      exists ([info] ++ recs), b', es.
      split; [|split; [exact Hopen'|split; [exact Hname'|split; [exact Hmem'|split; [|split]]]]].
      * erewrite bind_returned; [|rewrite bind_log; unfold ret; reflexivity].
        cbn [fst snd]. erewrite bind_returned; [|exact Hrun']. unfold ret.
        rewrite logged_logged. cbn [fst snd fmap list_fmap].
        unfold prune at 2. rewrite Hpf. reflexivity.
      * eapply Forall_impl; [exact Hes|]. intros e (pkg' & Hpkg' & Hpf' & He).
        exists pkg'. split; [right; exact Hpkg'|]. split; [exact Hpf'|exact He].
      * intros m. rewrite elem_of_app, Hwarn, list_elem_of_singleton. split.
        -- intros [Hi|(pkg' & f & Hpkg' & Hpf' & Hf & Hoff & ->)]; [discriminate Hi|].
           exists pkg', f. split; [right; exact Hpkg'|].
           repeat (split; [assumption|]). reflexivity.
        -- intros (pkg' & f & Hpkg' & Hpf' & Hf & Hoff & ->). right.
           apply elem_of_cons in Hpkg' as [->|Hpkg']; [congruence|].
           exists pkg', f. repeat (split; [assumption|]). reflexivity.
      * intros pkg' f Hpkg' Hpf' Hf Hon Hr Hn. apply elem_of_cons in Hpkg' as [->|Hpkg'].
        -- congruence.
        -- apply (Hin pkg' f); assumption.
Qed.

Lemma pack_directories_spec dirs : forall b w,
  open_builder b ->
  exists recs b' es,
    pack_directories dirs b w = (logged recs w, Returned b')
    /\ open_builder b'
    /\ tar_name (tar b') = tar_name (tar b)
    /\ members (tar b') = members (tar b) ++ es
    /\ (forall m, (WARNING, m) ∉ recs)
    /\ (forall d, d ∈ dirs -> is_dir w d = true -> rooted d -> d <> Path_new ["/"] ->
                  data_entry d ∈ members (tar b')).
Proof.
  induction dirs as [|d dirs IH]; intros b w Hopen.
  - exists [], b, []. cbn [pack_directories]. unfold ret. rewrite logged_nil, app_nil_r.
    split; [reflexivity|]. split; [exact Hopen|]. do 2 (split; [reflexivity|]).
    split; [intros m Hm; apply elem_of_nil in Hm; exact Hm|].
    intros d Hd. apply elem_of_nil in Hd. contradiction.
  - cbn [pack_directories]. rewrite bind_get. destruct (is_dir w d) eqn:Hd.
    + destruct (add_data_open b d w Hopen)
        as (new & b1 & Hrun & Hopen1 & Hname1 & Hmem1 & _ & Hself).
      destruct (IH b1 (logged (debug_line <$> new) w) Hopen1)
        as (recs & b' & es & Hrun' & Hopen' & Hname' & Hmem' & Hquiet & Hin).
      exists ((debug_line <$> new) ++ recs), b', ((data_entry <$> new) ++ es).
      erewrite bind_returned; [|exact Hrun]. rewrite Hrun', logged_logged.
      split; [reflexivity|]. split; [exact Hopen'|]. split; [congruence|].
      split; [rewrite Hmem', Hmem1, app_assoc; reflexivity|]. split.
      * intros m [Hm|Hm]%elem_of_app;
          [exact (debug_line_not_warning _ _ Hm)|exact (Hquiet m Hm)].
      * intros d' Hd' Hdir Hr Hn. apply elem_of_cons in Hd' as [->|Hd'].
        -- rewrite Hmem'. apply elem_of_app. left. apply Hself; assumption.
        -- apply Hin; assumption.
    + destruct (IH b w Hopen)
        as (recs & b' & es & Hrun' & Hopen' & Hname' & Hmem' & Hquiet & Hin).
      exists recs, b', es. unfold ret at 1.
      erewrite bind_returned; [|reflexivity]. rewrite Hrun'.
      split; [reflexivity|]. split; [exact Hopen'|]. split; [exact Hname'|].
      split; [exact Hmem'|]. split; [exact Hquiet|].
      intros d' Hd' Hdir Hr Hn. apply elem_of_cons in Hd' as [->|Hd'].
      * congruence.
      * apply Hin; assumption.
Qed.

End PackLoops.

Section PackRun.

Context {Runs : Type} {E : @Externals Runs}.

Implicit Types (w : @World Runs) (b : PackBuilder) (f : File).

(** C5. When the target exists, or else when the directory has no
    configuration file, [pack] exits with status 1, and all it did before
    was to write one message to [stderr]: the file system, the archives
    and what else the world holds are as they were. *)
Theorem pack_fails_before_mutation (target directory : Path) (sort_packages : bool) w :
  path_exists w target = true
  \/ is_file w (Path_div directory "config.yml") = false ->
  exists w',
    pack target directory sort_packages w = (w', SysExit 1)
    /\ only_stderr w w'.
Proof.
  intros Hpre. unfold pack. rewrite bind_get.
  destruct (path_exists w target) eqn:Htarget.
  - eexists. split; [reflexivity|]. unfold only_stderr. cbn.
    do 5 (split; [reflexivity|]). eexists. reflexivity.
  - destruct Hpre as [Hpre|Hcfg]; [discriminate Hpre|].
    erewrite bind_returned; [|reflexivity]. rewrite bind_get, Hcfg.
    eexists. split; [reflexivity|]. unfold only_stderr. cbn.
    do 5 (split; [reflexivity|]). eexists. reflexivity.
Qed.

Lemma finally_remove_eq {A} (body : M A) path w w' (o : outcome A) :
  body w = (w', o) -> finally_remove body path w = (with_fs (delete path) w', o).
Proof. intros H. unfold finally_remove. rewrite H. reflexivity. Qed.

(** A run of [pack] past its two preconditions: it goes as far as the
    query on the trace database and fails with it, or else completes.
    The loops see the disk with the target file on it. *)
Lemma pack_run (target directory : Path) (sort_packages : bool) w
    runs0 packages0 other_files0 patterns runs packages other_files :
  path_exists w target = false ->
  is_file w (Path_div directory "config.yml") = true ->
  load_config w (Path_div directory "config.yml")
    = Returned (runs0, packages0, other_files0, patterns) ->
  canonicalize_config w runs0 packages0 other_files0 patterns sort_packages
    = (runs, packages, other_files) ->
  let w1 := with_fs (insert (PathObj (pstr target)) (Inode false 0)) w in
  let trace := Path_div directory "trace.sqlite3" in
  exists w',
    pack target directory sort_packages w =
      (w', match list_directories w trace with
           | Returned _ => Returned tt
           | SysExit status => SysExit status
           | Raised exn => Raised exn
           end)
    /\ stderr w' = stderr w
    /\ (forall m, (WARNING, m) ∈ logging w' <->
           (WARNING, m) ∈ logging w
           \/ (exists pkg f, pkg ∈ packages /\ Package_packfiles pkg = true
                             /\ f ∈ Package_files pkg /\ on_disk w1 f = false
                             /\ m = missing_from pkg f)
           \/ (exists f, f ∈ other_files /\ on_disk w1 f = false /\ m = missing f))
    /\ match list_directories w trace with
       | Returned dirs =>
           (exists p,
              saved w' = saved w ++
                [(p, ManifestDoc runs (prune w1 <$> packages)
                       (filter (fun f => on_disk w1 f = true) other_files)
                       reprozip_version)])
           /\ exists es,
                archives w' = <[pstr target := es]> (archives w)
                /\ (forall pkg f, pkg ∈ packages -> Package_packfiles pkg = true ->
                       f ∈ Package_files pkg -> on_disk w1 f = true ->
                       rooted (File_path f) -> File_path f <> Path_new ["/"] ->
                       data_entry (File_path f) ∈ es)
                /\ (forall f, f ∈ other_files -> on_disk w1 f = true ->
                       rooted (File_path f) -> File_path f <> Path_new ["/"] ->
                       data_entry (File_path f) ∈ es)
                /\ (forall d, d ∈ dirs -> is_dir w1 d = true ->
                       rooted d -> d <> Path_new ["/"] -> data_entry d ∈ es)
                /\ exists p1 p2,
                     Entry (pstr p1) "METADATA/version" true ∈ es
                     /\ Entry (pstr p2) "METADATA/config.yml" true ∈ es
       | _ => saved w' = saved w /\ archives w' = archives w
       end.
Proof.
  intros Htarget Hcfg Hload Hcanon w1 trace. unfold pack.
  rewrite bind_get, Htarget. erewrite bind_returned; [|reflexivity].
  rewrite bind_get, Hcfg. cbn [negb]. erewrite bind_returned; [|reflexivity].
  rewrite bind_get. erewrite bind_returned; [|unfold lift; rewrite Hload; reflexivity].
  cbv beta iota. rewrite bind_get, Hcanon. cbv beta iota.
  rewrite bind_log. erewrite bind_returned; [|reflexivity].
  rewrite bind_get. fold trace.
  set (info1 := (INFO, "Creating pack " +:+ pstr target +:+ "...")).
  set (W0 := with_fs _ (logged [info1] w)).
  set (b0 := Builder (TarObj (pstr target) [] false) (Some ∅)).
  assert (Hb1 : exists b1,
    (if is_file W0 trace
     then PackBuilder_add b0 trace (Path_new ["METADATA/trace.sqlite3"])
     else ret b0) W0 = (W0, Returned b1)
    /\ open_builder b1 /\ tar_name (tar b1) = pstr target).
  { assert (Hopen0 : forall es, open_builder (Builder (TarObj (pstr target) es false) (Some ∅))).
    { intros es. split; [reflexivity|]. exists ∅. split; [reflexivity|].
      intros q Hq. apply elem_of_empty in Hq. contradiction. }
    destruct (is_file W0 trace).
    - eexists. split; [apply PackBuilder_add_eq; reflexivity|].
      split; [apply Hopen0|reflexivity].
    - exists b0. split; [reflexivity|]. split; [apply Hopen0|reflexivity]. }
  destruct Hb1 as (b1 & Hrun1 & Hopen1 & Hname1).
  erewrite bind_returned; [|exact Hrun1].
  destruct (pack_packages_spec packages b1 W0 Hopen1)
    as (recs2 & b2 & es2 & Hrun2 & Hopen2 & Hname2 & Hmem2 & _ & Hwarn2 & Hin2).
  erewrite bind_returned; [|exact Hrun2]. cbv beta iota. rewrite bind_log.
  set (info2 := (INFO, "Adding other files...")).
  destruct (pack_files_spec missing other_files b2 [] (logged [info2] (logged recs2 W0)) Hopen2)
    as (recs3 & b3 & es3 & Hrun3 & Hopen3 & Hname3 & Hmem3 & _ & Hwarn3 & Hin3).
  erewrite bind_returned; [|exact Hrun3]. cbv beta iota. rewrite bind_get.
  set (W3 := logged recs3 (logged [info2] (logged recs2 W0))).
  change (list_directories W3 trace) with (list_directories w trace).
  assert (Hwarnings : forall recs4, (forall m, (WARNING, m) ∉ recs4) ->
    forall m, (WARNING, m) ∈ logging w ++ [info1] ++ recs2 ++ [info2] ++ recs3 ++ recs4 <->
           (WARNING, m) ∈ logging w
           \/ (exists pkg f, pkg ∈ packages /\ Package_packfiles pkg = true
                             /\ f ∈ Package_files pkg /\ on_disk w1 f = false
                             /\ m = missing_from pkg f)
           \/ (exists f, f ∈ other_files /\ on_disk w1 f = false /\ m = missing f)).
  { intros recs4 Hquiet m. rewrite !elem_of_app, !list_elem_of_singleton.
    rewrite (Hwarn2 m), (Hwarn3 m). split.
    - intros [H|[H|[H|[H|[H|H]]]]]; try discriminate H; try tauto.
      destruct (Hquiet m H).
    - intros [H|[H|H]]; tauto. }
  destruct (list_directories w trace) as [dirs|status|exn] eqn:Hdirs.
  - erewrite bind_returned; [|reflexivity].
    destruct (pack_directories_spec (elements dirs) b3 W3 Hopen3)
      as (recs4 & b4 & es4 & Hrun4 & Hopen4 & Hname4 & Hmem4 & Hquiet4 & Hin4).
    erewrite bind_returned; [|exact Hrun4]. rewrite bind_log, bind_get.
    set (info3 := (INFO, "Adding metadata...")).
    set (W4 := logged [info3] (logged recs4 W3)).
    erewrite bind_returned; [|reflexivity].
    destruct Hopen4 as (Hclosed4 & _).
    erewrite bind_returned;
      [|apply finally_remove_eq; erewrite bind_returned; [|reflexivity];
        apply PackBuilder_add_eq; exact Hclosed4].
    rewrite bind_get.
    erewrite bind_returned; [|reflexivity].
    erewrite bind_returned;
      [|apply finally_remove_eq; erewrite bind_returned; [|reflexivity];
        apply PackBuilder_add_eq; reflexivity].
    erewrite bind_returned; [|reflexivity].
    eexists. split; [reflexivity|]. cbn [stderr logging saved archives with_fs logged
      with_saved with_archive tar tar_name members fst snd].
    split; [reflexivity|]. split.
    + intros m. unfold W4, W3, W0. cbn [logging logged with_fs].
      rewrite <- !app_assoc. apply (Hwarnings (recs4 ++ [info3])).
      intros m' [Hm|Hm]%elem_of_app; [exact (Hquiet4 m' Hm)|].
      apply list_elem_of_singleton in Hm. discriminate Hm.
    + split; [eexists; reflexivity|].
      eexists. split; [rewrite Hname4, Hname3, Hname2, Hname1; reflexivity|].
      split; [|split; [|split]].
      * intros pkg f Hpkg Hpf Hf Hon Hr Hn. rewrite Hmem4, Hmem3.
        do 4 (apply elem_of_app; left). apply (Hin2 pkg f); assumption.
      * intros f Hf Hon Hr Hn. rewrite Hmem4.
        do 3 (apply elem_of_app; left). apply (Hin3 f); assumption.
      * intros d Hd Hdir Hr Hn.
        do 2 (apply elem_of_app; left). apply (Hin4 d); try assumption.
        apply elem_of_elements, Hd.
      * eexists _, _. split.
        -- apply elem_of_app. left. apply elem_of_app. right. left.
        -- apply elem_of_app. right. left.
  - eexists. split; [reflexivity|]. cbn [stderr logging saved archives with_fs logged].
    split; [reflexivity|]. split; [|split; reflexivity].
    intros m. unfold W3, W0. cbn [logging logged with_fs].
    rewrite <- !app_assoc. rewrite <- (app_nil_r recs3). apply (Hwarnings []).
    intros m' Hm. apply elem_of_nil in Hm. exact Hm.
  - eexists. split; [reflexivity|]. cbn [stderr logging saved archives with_fs logged].
    split; [reflexivity|]. split; [|split; reflexivity].
    intros m. unfold W3, W0. cbn [logging logged with_fs].
    rewrite <- !app_assoc. rewrite <- (app_nil_r recs3). apply (Hwarnings []).
    intros m' Hm. apply elem_of_nil in Hm. exact Hm.
Qed.

(** C2. With a configuration but no trace database in the directory,
    [pack] does not complete: the query of [list_directories] raises, after
    the files were added, and no archive is closed nor manifest saved. *)
Theorem pack_without_trace_raises (target directory : Path) (sort_packages : bool) w
    runs packages other_files :
  pack_ready target directory sort_packages w runs packages other_files ->
  sqlite w !! Path_div directory "trace.sqlite3" = None ->
  exists w',
    pack target directory sort_packages w = (w', Raised "sqlite3.OperationalError")
    /\ saved w' = saved w /\ archives w' = archives w.
Proof.
  intros (Htarget & Hcfg & runs0 & packages0 & other_files0 & patterns & Hload & Hcanon) Hdb.
  destruct (pack_run target directory sort_packages w _ _ _ _ _ _ _
              Htarget Hcfg Hload Hcanon) as (w' & Hrun & _ & _ & Hrest).
  unfold list_directories in Hrun, Hrest. rewrite Hdb in Hrun, Hrest.
  exists w'. split; [exact Hrun|exact Hrest].
Qed.


End PackRun.

Lemma pack_without_trace_raises_witness :
  let E := Demo.env [Demo.coreutils; Demo.libc] [Demo.file "/etc/hosts"] [] in
  exists w',
    pack Demo.target Demo.directory false Demo.world_without_trace
      = (w', Raised "sqlite3.OperationalError")
    /\ saved w' = saved Demo.world_without_trace
    /\ archives w' = archives Demo.world_without_trace.
Proof.
  intros E.
  apply (pack_without_trace_raises Demo.target Demo.directory false Demo.world_without_trace
           tt [Demo.coreutils; Demo.libc] [Demo.file "/etc/hosts"]).
  - split; [vm_compute; reflexivity|]. split; [vm_compute; reflexivity|].
    exists tt, [Demo.coreutils; Demo.libc], [Demo.file "/etc/hosts"], [].
    split; [reflexivity|vm_compute; reflexivity].
  - vm_compute. reflexivity.
Defined.

Lemma pack_fails_before_mutation_witness :
  let E := Demo.env [Demo.coreutils] [] [] in
  exists w',
    pack (Path_new ["/etc/hosts"]) Demo.directory false Demo.world = (w', SysExit 1)
    /\ only_stderr Demo.world w'.
Proof.
  intros E.
  apply (pack_fails_before_mutation (Path_new ["/etc/hosts"]) Demo.directory false Demo.world).
  left. vm_compute. reflexivity.
Defined.






Lemma list_directories_required_witness :
  let E := Demo.env [] [] [] in
  let trace := Path_new ["/home/user/exp/trace.sqlite3"] in
  (exists result,
     list_directories Demo.world trace = Returned result
     /\ forall d, d ∈ result <-> required_by Demo.trace_rows d)
  /\ (Demo.trace_rows = [("/home/user", FILE_WDIR); ("/home/user/project/out.txt", FILE_WRITE)] ->
      list_directories Demo.world trace =
        Returned ({[Path_new ["/home/user"]; Path_new ["/home/user/project"]]})).
Proof.
  intros E trace.
  apply (list_directories_required Demo.world trace Demo.trace_rows).
  - cbn. discriminate.
  - vm_compute. reflexivity.
Defined.

(** * Further properties of the archive builder *)

Section BuilderMore.

Context {Runs : Type}.

Implicit Types (w : @World Runs) (b : PackBuilder) (s : gset Path).



(** X2. [close] hands the entries written so far to the archive file and
    drops the ledger; on the closed builder [add_data] raises [TypeError] and
    [add] raises, and neither touches the world. *)
Theorem closed_builder_fails b s (filename name arcname : Path) w :
  seen b = Some s -> closed (tar b) = false ->
  exists b',
    PackBuilder_close b w
      = (with_archive (tar_name (tar b)) (members (tar b)) w, Returned b')
    /\ seen b' = None
    /\ (forall w', add_data b' filename w' = (w', Raised "TypeError"))
    /\ (forall w', PackBuilder_add b' name arcname w' = (w', Raised "OSError"))
    /\ (forall w', PackBuilder_close b' w' = (w', Returned b')).
Proof.
  intros Hs Hopen. unfold PackBuilder_close, bind, TarFile_close. rewrite Hopen.
  eexists. split; [reflexivity|]. split; [reflexivity|].
  split; [|split]; intros w'; reflexivity.
Qed.






End BuilderMore.

Section LedgerMore.

Context {Runs : Type}.

Implicit Types (w : @World Runs) (b : PackBuilder).



End LedgerMore.

(** * Further properties of the path mapping *)

Section DataPathMore.

Lemma Path_div_rel cs c :
  cs <> [] -> names cs -> name_ok c = true ->
  Path_div (PathObj (Py.join cs)) c = PathObj (Py.join (cs ++ [c])).
Proof.
  intros Hne Hcs Hc. unfold Path_div, Path_new, posixpath.join. cbn [pstr fold_left].
  unfold posixpath.join2. rewrite name_not_abs by assumption.
  rewrite join_not_empty, endswith_join by assumption. cbn [orb].
  rewrite <- join_snoc by assumption.
  rewrite normpath_rel; [reflexivity|destruct cs; discriminate|].
  apply Forall_app. split; [exact Hcs|constructor; [exact Hc|constructor]].
Qed.

(** X5. The archive mirrors the tree: the archive path of the child [c] of
    a directory is the child [c] of the directory's archive path. *)
Theorem data_path_child (p : Path) (c : string) :
  rooted p -> name_ok c = true ->
  data_path (Path_div p c) = Path_div (data_path p) c.
Proof.
  intros (cs & Hcs & ->) Hc.
  assert (Hall : names (cs ++ [c]))
    by (apply Forall_app; split; [exact Hcs|constructor; [exact Hc|constructor]]).
  rewrite Path_div_rooted by assumption.
  rewrite !data_path_rooted by assumption.
  rewrite Path_div_rel; [reflexivity|discriminate| |exact Hc].
  constructor; [reflexivity|exact Hcs].
Qed.

(** X6. The components of the archive path are [DATA] followed by the
    components of the input below the root, in order and unchanged. *)
Theorem data_path_components (p : Path) :
  rooted p -> components (data_path p) = "DATA" :: drop 1 (components p).
Proof.
  intros (cs & Hcs & ->). rewrite data_path_rooted, components_rooted by assumption.
  apply components_rel; [discriminate|]. constructor; [reflexivity|exact Hcs].
Qed.

End DataPathMore.

(** * Further properties of the trace directories *)

Section ListDirectoriesMore.

Context {Runs : Type} {E : @Externals Runs}.

Implicit Types (w : @World Runs).

Lemma parent_keeps_rooted p : rooted p -> rooted (parent p).
Proof.
  intros (cs & Hcs & ->). exists (removelast cs).
  split; [apply names_removelast, Hcs|apply parent_rooted_removelast, Hcs].
Qed.

Lemma list_directories_elem w database rows :
  sqlite w !! database = Some rows ->
  exists result,
    list_directories w database = Returned result
    /\ forall d, d ∈ result <->
         exists r, r ∈ rows /\ relevant r
                   /\ d = if bool_decide (snd r = FILE_WDIR) then Path_new [fst r]
                          else parent (Path_new [fst r]).
Proof.
  intros Hdb. unfold list_directories. rewrite Hdb. eexists. split; [reflexivity|].
  intros d. rewrite elem_of_list_to_set, list_elem_of_fmap. split.
  - intros (r' & -> & Hin). apply list_elem_of_fmap in Hin as (r & -> & Hin).
    apply list_elem_of_filter in Hin as [Hrel Hin]. exists r. cbn [fst snd].
    split; [exact Hin|]. split; [exact Hrel|reflexivity].
  - intros (r & Hin & Hrel & ->). exists (Path_new [fst r], snd r). cbn [fst snd].
    split; [reflexivity|]. apply list_elem_of_fmap. exists r. split; [reflexivity|].
    apply list_elem_of_filter. split; [exact Hrel|exact Hin].
Qed.

(** X7. When the observed names are absolute, every directory that
    [list_directories] returns is a well-formed absolute path, also the
    parent taken for a write. *)
Theorem list_directories_rooted w (database : Path) rows result :
  sqlite w !! database = Some rows ->
  (forall r, r ∈ rows -> Py.startswith (fst r) "/" = true
                         /\ posixpath.initial_slashes (fst r) = 1) ->
  list_directories w database = Returned result ->
  forall d, d ∈ result -> rooted d.
Proof.
  intros Hdb Habs Hres d Hd.
  destruct (list_directories_elem w database rows Hdb) as (result' & Hres' & Hchar).
  rewrite Hres in Hres'. injection Hres' as <-.
  apply Hchar in Hd as (r & Hin & _ & ->). destruct (Habs r Hin) as [H1 H2].
  pose proof (Path_new_rooted (fst r) H1 H2) as Hr.
  case_bool_decide; [exact Hr|apply parent_keeps_rooted, Hr].
Qed.

(** X8. The result depends on the set of observations of the two modes
    only: observations of other modes, repetitions and the order of the rows
    change nothing. *)
Theorem list_directories_ignores_other_modes w w' (database database' : Path) rows rows' :
  sqlite w !! database = Some rows ->
  sqlite w' !! database' = Some rows' ->
  (forall r, relevant r -> (r ∈ rows <-> r ∈ rows')) ->
  list_directories w database = list_directories w' database'.
Proof.
  intros Hdb Hdb' Hsame.
  destruct (list_directories_elem w database rows Hdb) as (res & -> & Hchar).
  destruct (list_directories_elem w' database' rows' Hdb') as (res' & -> & Hchar').
  f_equal. apply set_eq. intros d. rewrite Hchar, Hchar'. split.
  - intros (r & Hin & Hrel & ->). exists r. split; [apply Hsame; assumption|].
    split; [exact Hrel|reflexivity].
  - intros (r & Hin & Hrel & ->). exists r. split; [apply Hsame; assumption|].
    split; [exact Hrel|reflexivity].
Qed.

End ListDirectoriesMore.

(** * Further properties of the pattern expansion *)

Section ExpandPatternsMore.

Context {Runs : Type} {E : @Externals Runs}.

Implicit Types (w : @World Runs) (p q : Path).

Lemma expand_match_elem w acc path p :
  (p ∈ (expand_match w acc path).1 <->
     p ∈ acc.1 \/ (p = path /\ is_dir w p = false))
  /\ (p ∈ (expand_match w acc path).2 <->
        p ∈ acc.2 \/ (p = path /\ is_dir w p = true)).
Proof.
  destruct acc as [files dirs]. unfold expand_match.
  destruct (decide (p = path)) as [->|Hne];
    destruct (is_dir w path) eqn:Hd; cbn [fst snd];
    rewrite ?elem_of_union, ?elem_of_singleton; intuition congruence.
Qed.

Lemma expand_inner_elem w l : forall acc p,
  (p ∈ (fold_left (expand_match w) l acc).1 <->
     p ∈ acc.1 \/ (p ∈ l /\ is_dir w p = false))
  /\ (p ∈ (fold_left (expand_match w) l acc).2 <->
        p ∈ acc.2 \/ (p ∈ l /\ is_dir w p = true)).
Proof.
  induction l as [|x l IH]; intros acc p; cbn [fold_left].
  - rewrite elem_of_nil. tauto.
  - destruct (IH (expand_match w acc x) p) as [IH1 IH2].
    destruct (expand_match_elem w acc x p) as [Hm1 Hm2].
    rewrite IH1, IH2, Hm1, Hm2, elem_of_cons. tauto.
Qed.

Lemma expand_outer_elem w pats : forall acc p,
  let r := fold_left
             (fun acc pattern =>
                fold_left (expand_match w) (recursedir w (Path_new ["/"]) pattern) acc)
             pats acc in
  (p ∈ r.1 <-> p ∈ acc.1 \/ (matched w pats p /\ is_dir w p = false))
  /\ (p ∈ r.2 <-> p ∈ acc.2 \/ (matched w pats p /\ is_dir w p = true)).
Proof.
  induction pats as [|pat pats IH]; intros acc p; cbn [fold_left].
  - unfold matched. split; (split; [tauto|]);
      (intros [H|[(pattern & Hp & _) _]]; [exact H|apply elem_of_nil in Hp; contradiction]).
  - destruct (IH (fold_left (expand_match w) (recursedir w (Path_new ["/"]) pat) acc) p)
      as [IH1 IH2].
    destruct (expand_inner_elem w (recursedir w (Path_new ["/"]) pat) acc p) as [Hi1 Hi2].
    cbv zeta in *. rewrite IH1, IH2, Hi1, Hi2. unfold matched.
    split; split.
    + intros [[H|[Hin Hd]]|[(pattern & Hp & Hin) Hd]]; [tauto| |].
      * right. split; [exists pat; split; [left|exact Hin]|exact Hd].
      * right. split; [exists pattern; split; [right; exact Hp|exact Hin]|exact Hd].
    + intros [H|[(pattern & Hp & Hin) Hd]]; [tauto|].
      apply elem_of_cons in Hp as [->|Hp]; [tauto|].
      right. split; [exists pattern; split; assumption|exact Hd].
    + intros [[H|[Hin Hd]]|[(pattern & Hp & Hin) Hd]]; [tauto| |].
      * right. split; [exists pat; split; [left|exact Hin]|exact Hd].
      * right. split; [exists pattern; split; [right; exact Hp|exact Hin]|exact Hd].
    + intros [H|[(pattern & Hp & Hin) Hd]]; [tauto|].
      apply elem_of_cons in Hp as [->|Hp]; [tauto|].
      right. split; [exists pattern; split; assumption|exact Hd].
Qed.

(** The two sets of the first loop. *)
Lemma expand_matches_elem w pats p :
  (p ∈ (expand_matches w pats).1 <-> matched w pats p /\ is_dir w p = false)
  /\ (p ∈ (expand_matches w pats).2 <-> matched w pats p /\ is_dir w p = true).
Proof.
  destruct (expand_outer_elem w pats (∅, ∅) p) as [H1 H2]. cbv zeta in *.
  unfold expand_matches. rewrite H1, H2. cbn [fst snd].
  split; (split; [intros [H|H]; [apply elem_of_empty in H; contradiction|exact H]|tauto]).
Qed.

(** The set of the second loop. *)
Lemma non_empty_dirs_elem l q :
  q ∈ non_empty_dirs_of l <->
  q = Path_new ["/"]
  \/ exists p, p ∈ l /\ q ∈ walk (Path_new ["/"]) (drop 1 (components p)).
Proof.
  unfold non_empty_dirs_of.
  assert (Hgen : forall acc,
    q ∈ fold_left
          (fun non_empty_dirs p =>
             walk_down (Path_new ["/"]) (drop 1 (components p)) non_empty_dirs) l acc <->
    q ∈ acc \/ exists p, p ∈ l /\ q ∈ walk (Path_new ["/"]) (drop 1 (components p))).
  { induction l as [|x l IH]; intros acc; cbn [fold_left].
    - split; [tauto|]. intros [H|(p & Hp & _)]; [exact H|].
      apply elem_of_nil in Hp. contradiction.
    - rewrite IH, walk_down_walk, elem_of_union, elem_of_list_to_set. split.
      + intros [[H|H]|(p & Hp & Hq)]; [tauto| |].
        * right. exists x. split; [left|exact H].
        * right. exists p. split; [right; exact Hp|exact Hq].
      + intros [H|(p & Hp & Hq)]; [tauto|].
        apply elem_of_cons in Hp as [->|Hp]; [tauto|].
        right. exists p. split; assumption. }
  rewrite Hgen, elem_of_singleton. reflexivity.
Qed.

(** What [expand_patterns] returns, read off its three steps. *)
Lemma expand_patterns_elem w pats f :
  f ∈ expand_patterns w pats <->
  exists p,
    f = File_new w p /\ matched w pats p
    /\ (is_dir w p = false
        \/ (p <> Path_new ["/"]
            /\ forall p', matched w pats p' ->
                          p ∉ walk (Path_new ["/"]) (drop 1 (components p')))).
Proof.
  unfold expand_patterns.
  pose proof (expand_matches_elem w pats) as Hm.
  destruct (expand_matches w pats) as [files dirs]. cbn [fst snd] in Hm.
  rewrite list_elem_of_fmap. split.
  - intros (p & -> & Hp). exists p. split; [reflexivity|].
    apply elem_of_app in Hp as [Hp|Hp].
    + apply elem_of_elements, elem_of_difference in Hp as [Hd Hn].
      apply Hm in Hd as [Hmatch Hd]. split; [exact Hmatch|]. right.
      rewrite non_empty_dirs_elem in Hn. split.
      * intros ->. apply Hn. left. reflexivity.
      * intros p' Hp' Hw. apply Hn. right. exists p'. split; [|exact Hw].
        apply elem_of_elements, elem_of_union.
        destruct (is_dir w p') eqn:Hd'; [right|left]; apply Hm; split; assumption.
    + apply elem_of_elements, Hm in Hp as [Hmatch Hd]. split; [exact Hmatch|left; exact Hd].
  - intros (p & -> & Hmatch & Hcase). exists p. split; [reflexivity|].
    apply elem_of_app. destruct (is_dir w p) eqn:Hd.
    + destruct Hcase as [Hcase|[Hroot Hnw]]; [discriminate|]. left.
      apply elem_of_elements, elem_of_difference. split; [apply Hm; split; assumption|].
      rewrite non_empty_dirs_elem. intros [->|(p' & Hp' & Hw)]; [apply Hroot; reflexivity|].
      apply (Hnw p'); [|exact Hw].
      apply elem_of_elements, elem_of_union in Hp' as [Hp'|Hp']; apply Hm in Hp'; tauto.
    + right. apply elem_of_elements, Hm. split; assumption.
Qed.


(** X10. No path is returned twice, however many patterns match it; and
    the set of files returned is the same for two lists of patterns with the
    same patterns, in any order and number. *)
Theorem expand_patterns_no_duplicates w (patterns patterns' : list string) :
  NoDup (File_path <$> expand_patterns w patterns)
  /\ ((forall pattern, pattern ∈ patterns <-> pattern ∈ patterns') ->
      forall f, f ∈ expand_patterns w patterns <-> f ∈ expand_patterns w patterns').
Proof.
  split.
  - unfold expand_patterns.
    pose proof (expand_matches_elem w patterns) as Hm.
    destruct (expand_matches w patterns) as [files dirs]. cbn [fst snd] in Hm.
    assert (Hid : forall l : list Path, File_path <$> (File_new w <$> l) = l).
    { induction l as [|x l IH]; [reflexivity|].
      rewrite !fmap_cons, IH. reflexivity. }
    rewrite Hid.
    apply NoDup_app. split; [apply NoDup_elements|]. split; [|apply NoDup_elements].
    intros p Hp Hp'. apply elem_of_elements, elem_of_difference in Hp as [Hd _].
    apply elem_of_elements in Hp'. apply Hm in Hd. apply Hm in Hp'.
    destruct Hd as [_ Hd], Hp' as [_ Hf]. congruence.
  - intros Hsame f.
    assert (Hmatched : forall p, matched w patterns p <-> matched w patterns' p).
    { intros p. unfold matched. split; intros (pat & Hp & Hin); exists pat;
        (split; [apply Hsame, Hp|exact Hin]). }
    rewrite !expand_patterns_elem. split.
    + intros (p & -> & Hmatch & Hcase). exists p. split; [reflexivity|].
      split; [apply Hmatched, Hmatch|]. destruct Hcase as [Hd|[Hr Hnw]]; [left; exact Hd|right].
      split; [exact Hr|]. intros p' Hp'. apply Hnw, Hmatched, Hp'.
    + intros (p & -> & Hmatch & Hcase). exists p. split; [reflexivity|].
      split; [apply Hmatched, Hmatch|]. destruct Hcase as [Hd|[Hr Hnw]]; [left; exact Hd|right].
      split; [exact Hr|]. intros p' Hp'. apply Hnw, Hmatched, Hp'.
Qed.

End ExpandPatternsMore.

(** * Further properties of the orchestrator *)

Section PackLoopsMore.

Context {Runs : Type} {E : @Externals Runs}.

Implicit Types (w : @World Runs) (b : PackBuilder) (f : File) (ds : list Path).




End PackLoopsMore.

Section PackMore.

Context {Runs : Type} {E : @Externals Runs}.

Implicit Types (w : @World Runs) (b : PackBuilder) (f : File).


(** X11. When the configuration cannot be loaded, [pack] ends with the
    error of the codec and has done nothing: the target is not created and
    the world is as it was. *)
Theorem pack_config_error_propagates (target directory : Path) (sort_packages : bool) w exn :
  path_exists w target = false ->
  is_file w (Path_div directory "config.yml") = true ->
  load_config w (Path_div directory "config.yml") = Raised exn ->
  pack target directory sort_packages w = (w, Raised exn).
Proof.
  intros Htarget Hcfg Hload. unfold pack.
  rewrite bind_get, Htarget. erewrite bind_returned; [|reflexivity].
  rewrite bind_get, Hcfg. cbn [negb]. erewrite bind_returned; [|reflexivity].
  rewrite bind_get. unfold bind at 1, lift. rewrite Hload. reflexivity.
Qed.






Lemma filter_again {A} (P : A -> Prop) `{forall x, Decision (P x)} (l : list A) :
  filter P (filter P l) = filter P l.
Proof.
  induction l as [|x l IH]; [reflexivity|].
  rewrite (filter_cons P x l). destruct (decide (P x)) as [Hx|Hx]; [|exact IH].
  rewrite filter_cons_True by exact Hx. f_equal. exact IH.
Qed.

Lemma prune_idempotent w pkg : prune w (prune w pkg) = prune w pkg.
Proof.
  unfold prune. destruct (Package_packfiles pkg) eqn:Hpf; cbn [Package_packfiles];
    rewrite ?Hpf; [|reflexivity].
  cbn [Package_name Package_version Package_files Package_size].
  rewrite filter_again. reflexivity.
Qed.

(** X17. The pruned manifest is stable: running the loop over the packages
    again on the packages it returned, with the disk unchanged, returns them
    as they are and logs no warning. *)
Theorem pack_packages_stable (packages : list Package) b w :
  open_builder b ->
  exists recs b',
    pack_packages (prune w <$> packages) b w
      = (logged recs w, Returned (b', prune w <$> packages))
    /\ forall msg, (WARNING, msg) ∉ recs.
Proof.
  intros Hopen.
  destruct (pack_packages_spec (prune w <$> packages) b w Hopen)
    as (recs & b' & es & Hrun & _ & _ & _ & _ & Hwarn & _).
  exists recs, b'. split.
  - rewrite Hrun. do 3 f_equal. rewrite <- list_fmap_compose.
    apply list_fmap_ext. intros i pkg _. apply prune_idempotent.
  - intros msg (pkg' & f & Hpkg' & Hpf & Hf & Hoff & _)%Hwarn.
    apply list_elem_of_fmap in Hpkg' as (pkg & -> & _).
    unfold prune in Hpf, Hf. destruct (Package_packfiles pkg) eqn:Hpf'; [|congruence].
    cbn [Package_files] in Hf. apply list_elem_of_filter in Hf as [Hon _]. congruence.
Qed.

End PackMore.

(** * Serialisation of packages *)

Section SerializeFacts.

Context {U : Utils}.

Lemma add_files_keep_size (files : list File) : forall pkg,
  Package_size (fold_left Package_add_file files pkg) = Package_size pkg.
Proof.
  induction files as [|f files IH]; intros pkg; [reflexivity|].
  cbn [fold_left]. rewrite IH. reflexivity.
Qed.

(** X18. A package made by the constructor with its default size, and
    grown by [add_file], cannot be serialised: formatting the size raises
    before the first write, whatever files were added. *)
Theorem Package_default_not_serializable (name : string) (version : option string)
    (files : list File) (fp : list string) (lvl : Z) :
  Package_serialize (fold_left Package_add_file files (Package_default name version)) fp lvl
    = (fp, Raised "TypeError").
Proof.
  unfold Package_serialize. rewrite add_files_keep_size. reflexivity.
Qed.

Lemma serialize_files_eq (files : list File) (lvl : Z) : forall fp,
  serialize_files files fp lvl = fp ++ concat (file_chunks lvl <$> files).
Proof.
  induction files as [|f files IH]; intros fp.
  - cbn. rewrite app_nil_r. reflexivity.
  - cbn [serialize_files]. rewrite IH. unfold File_serialize.
    rewrite fmap_cons. cbn [concat]. unfold file_chunks at 2.
    rewrite <- !app_assoc. reflexivity.
Qed.

Lemma file_chunks_lookup (lvl : Z) (files : list File) : forall i f,
  files !! i = Some f ->
  concat (file_chunks lvl <$> files) !! (3 * i + 1)
    = Some ("File(" +:+ ser_string (pstr (File_path f)) +:+ ")").
Proof.
  induction files as [|x files IH]; intros i f Hi; [discriminate Hi|].
  rewrite fmap_cons. cbn [concat]. destruct i as [|i].
  - injection Hi as ->. reflexivity.
  - cbn [lookup list_lookup] in Hi. replace (3 * S i + 1) with (3 + (3 * i + 1)) by lia.
    unfold file_chunks at 1. apply (IH i f Hi).
Qed.

(** X19. With a size, [Package.serialize] returns and only appends to what
    was written before: five header lines, three strings for each file, and
    the closing bracket; the files appear in the order of the list, each
    once. *)
Theorem Package_serialize_lists_files (self : Package) (fp : list string) (lvl : Z)
    (size : Z) :
  Package_size self = Some size ->
  exists chunks,
    Package_serialize self fp lvl = (fp ++ chunks, Returned tt)
    /\ length chunks = 6 + 3 * length (Package_files self)
    /\ List.last chunks "" = indent lvl +:+ "])"
    /\ forall i f, Package_files self !! i = Some f ->
         chunks !! (5 + 3 * i + 1)
           = Some ("File(" +:+ ser_string (pstr (File_path f)) +:+ ")").
Proof.
  intros Hsize. unfold Package_serialize. rewrite Hsize.
  rewrite serialize_files_eq. rewrite <- !app_assoc. eexists. split; [reflexivity|].
  split; [|split].
  - cbn [app length]. rewrite length_app. cbn [length].
    assert (Hlen : forall l : list File, length (concat (file_chunks lvl <$> l)) = 3 * length l).
    { induction l as [|x l IH]; [reflexivity|].
      rewrite fmap_cons. cbn [concat]. rewrite length_app, IH. cbn [length file_chunks]. lia. }
    rewrite Hlen. lia.
  - cbn [app]. rewrite !app_comm_cons. apply List.last_last.
  - intros i f Hi. cbn [app]. cbn [lookup list_lookup Nat.add].
    apply lookup_app_l_Some, file_chunks_lookup, Hi.
Qed.

End SerializeFacts.

(** * The further properties at work on the example snapshot *)



Lemma closed_builder_fails_witness :
  exists b',
    PackBuilder_close DemoMore.fresh_builder Demo.world
      = (with_archive "/home/user/exp.rpz" [] Demo.world, Returned b')
    /\ seen b' = None
    /\ (forall w' : @World unit,
          add_data b' (Path_new ["/etc/hosts"]) w' = (w', Raised "TypeError"))
    /\ (forall w' : @World unit,
          PackBuilder_add b' (Path_new ["/etc/hosts"]) (Path_new ["METADATA/hosts"]) w'
            = (w', Raised "OSError"))
    /\ (forall w' : @World unit, PackBuilder_close b' w' = (w', Returned b')).
Proof.
  apply (closed_builder_fails DemoMore.fresh_builder ∅ (Path_new ["/etc/hosts"])
           (Path_new ["/etc/hosts"]) (Path_new ["METADATA/hosts"]) Demo.world);
    reflexivity.
Defined.



Lemma data_path_child_witness :
  data_path (Path_div (Path_new ["/etc"]) "hosts")
    = Path_div (data_path (Path_new ["/etc"])) "hosts".
Proof.
  apply (data_path_child (Path_new ["/etc"]) "hosts"); [|reflexivity].
  exists ["etc"]. split; [repeat constructor|reflexivity].
Defined.

Lemma data_path_components_witness :
  components (data_path (Path_new ["/etc/hosts"]))
    = "DATA" :: drop 1 (components (Path_new ["/etc/hosts"])).
Proof.
  apply (data_path_components (Path_new ["/etc/hosts"])).
  exists ["etc"; "hosts"]. split; [repeat constructor|reflexivity].
Defined.

Lemma list_directories_rooted_witness :
  let E := DemoMore.env in
  rooted (Path_new ["/home/user/project"]).
Proof.
  intros E.
  apply (list_directories_rooted Demo.world DemoMore.trace Demo.trace_rows DemoMore.dirs);
    [| | |apply elem_of_union; right; apply elem_of_singleton; reflexivity].
  - vm_compute. reflexivity.
  - intros r Hr. unfold Demo.trace_rows in Hr.
    repeat (apply elem_of_cons in Hr as [->|Hr]; [split; reflexivity|]).
    apply elem_of_nil in Hr. contradiction.
  - vm_compute. reflexivity.
Defined.

Lemma list_directories_ignores_other_modes_witness :
  let E := DemoMore.env in
  list_directories Demo.world DemoMore.trace
    = list_directories DemoMore.world_more DemoMore.trace.
Proof.
  intros E.
  apply (list_directories_ignores_other_modes Demo.world DemoMore.world_more
           DemoMore.trace DemoMore.trace Demo.trace_rows
           (Demo.trace_rows ++ [("/etc/hosts", 1%Z); ("/home/user", 4%Z)])).
  - vm_compute. reflexivity.
  - vm_compute. reflexivity.
  - intros [n m] Hrel. unfold Demo.trace_rows.
    rewrite elem_of_app, !elem_of_cons, !elem_of_nil.
    unfold relevant in Hrel. cbn in Hrel. split; [tauto|].
    intros [H|[H|[H|[]]]]; [exact H| |left; exact H].
    injection H as -> ->. destruct Hrel as [Hrel|Hrel]; discriminate Hrel.
Defined.

Lemma pack_config_error_propagates_witness :
  let E := DemoMore.broken_env in
  pack Demo.target Demo.directory false Demo.world = (Demo.world, Raised "yaml.YAMLError").
Proof.
  intros E.
  apply (pack_config_error_propagates Demo.target Demo.directory false Demo.world).
  - vm_compute. reflexivity.
  - vm_compute. reflexivity.
  - reflexivity.
Defined.






Lemma pack_packages_stable_witness :
  let E := DemoMore.env in
  exists recs b',
    pack_packages (prune Demo.world <$> [Demo.coreutils; Demo.libc])
      DemoMore.fresh_builder Demo.world
      = (logged recs Demo.world, Returned (b', prune Demo.world <$> [Demo.coreutils; Demo.libc]))
    /\ forall msg, (WARNING, msg) ∉ recs.
Proof.
  intros E.
  apply (pack_packages_stable [Demo.coreutils; Demo.libc] DemoMore.fresh_builder Demo.world).
  split; [reflexivity|]. exists ∅. split; [reflexivity|].
  intros q Hq. apply elem_of_empty in Hq. contradiction.
Defined.

Lemma Package_serialize_lists_files_witness :
  let U := DemoMore.utils in
  exists chunks,
    Package_serialize Demo.coreutils [] 0 = ([] ++ chunks, Returned tt)
    /\ length chunks = 6 + 3 * length (Package_files Demo.coreutils)
    /\ List.last chunks "" = indent 0 +:+ "])"
    /\ forall i f, Package_files Demo.coreutils !! i = Some f ->
         chunks !! (5 + 3 * i + 1)
           = Some ("File(" +:+ ser_string (pstr (File_path f)) +:+ ")").
Proof.
  intros U.
  apply (Package_serialize_lists_files Demo.coreutils [] 0 100). reflexivity.
Defined.
